(** * MeterMate: the frontend client and the reading-to-statistics core

    The development follows the layout of the repository's frontend:

    - [JS]     the few JavaScript built-ins the panel relies on
               (numbers, truthiness, [Date], exceptions);
    - the data exchanged with Home Assistant (registry entries, entity
      states, meters, readings, service calls);
    - [API]    [frontend/api.js], class [MeterMateAPI];
    - [Panel]  [frontend/ha-metermate-panel.js], class [HAMeterMatePanel];
    - [Core]   the Python side (validation, store, conversion engine,
               history rebuilder), which the frontend only reaches through
               service calls. *)

From Stdlib Require Import ZArith QArith Lia.
From stdpp Require Import gmap strings list sorting.

Close Scope Q_scope.
Local Open Scope string_scope.
Local Open Scope list_scope.
Local Open Scope Z_scope.

(** ** Stable insertion sort

    Both sorts of the system order a short list by one key and keep the
    relative order of equal keys.  [after x y] says that [x] has to come
    strictly after [y]. *)

Section insertion_sort.
Context {A : Type} (after : A → A → bool).

Fixpoint insert_sorted (x : A) (l : list A) : list A :=
  match l with
  | [] => [x]
  | y :: l' =>
      if after x y then y :: insert_sorted x l'
      else x :: y :: l'
  end.

Fixpoint insertion_sort (l : list A) : list A :=
  match l with
  | [] => []
  | x :: l' => insert_sorted x (insertion_sort l')
  end.
End insertion_sort.

(** ** JavaScript built-ins *)

Module JS.

(** A thrown value; the panel only ever reads its [message]. *)
Record Error := mkError { message : string }.

(** The outcome of an [await]ed call: a value, or a rejection. *)
Inductive result (A : Type) : Type :=
| Ok (a : A)
| Throw (e : Error).
Arguments Ok {A} a.
Arguments Throw {A} e.

(** A JavaScript number as [parseFloat] can return it.  Finite doubles
    are rationals; the two zeros are not told apart (both are falsy and
    neither is below zero). *)
Inductive number : Type :=
| NaN
| Infinity (negative : bool)
| Finite (q : Q).

(** [!x] is [negb (truthy x)]: [NaN] and zero are the falsy numbers. *)
Definition truthy (x : number) : bool :=
  match x with
  | NaN => false
  | Infinity _ => true
  | Finite q => negb (Qeq_bool q 0)
  end.

(** [x < 0]. *)
Definition lt_zero (x : number) : bool :=
  match x with
  | NaN => false
  | Infinity negative => negative
  | Finite q => negb (Qle_bool 0 q)
  end.

(** A [Date] object: its time value in milliseconds since the epoch, or
    nothing for an Invalid Date (time value [NaN]). *)
Definition Date : Type := option Z.

(** [d1 >= d2] on dates compares the time values; any comparison with
    [NaN] is false. *)
Definition date_ge (d1 d2 : Date) : bool :=
  match d1, d2 with
  | Some t1, Some t2 => bool_decide (t2 ≤ t1)
  | _, _ => false
  end.

(** [d.toISOString()]: the instant in ISO form, kept here as the instant
    itself; a [RangeError] on an Invalid Date. *)
Definition toISOString (d : Date) : result Z :=
  match d with
  | Some t => Ok t
  | None => Throw (mkError "Invalid time value")
  end.

(** [s || dflt] on an optional string attribute: [undefined] and the
    empty string are falsy. *)
Definition or_default (s : option string) (dflt : string) : string :=
  match s with
  | Some v => if decide (v = EmptyString) then dflt else v
  | None => dflt
  end.

(** [s || undefined]. *)
Definition or_undefined (s : string) : option string :=
  if decide (s = EmptyString) then None else Some s.

(** [s.startsWith(p)]. *)
Definition startsWith (s p : string) : bool := String.prefix p s.

(** Truthiness of a value that is [null] or a string. *)
Definition truthy_string (s : option string) : bool :=
  match s with
  | Some v => bool_decide (v ≠ EmptyString)
  | None => false
  end.

(** [error.message || error], as it is spliced into a template string. *)
Definition message_or_error (e : Error) : string :=
  if decide (message e = EmptyString) then "Error" else message e.

(** [d1 - d2] on dates: the difference of the time values, [NaN] when
    either date is invalid. *)
Definition date_sub (d1 d2 : Date) : number :=
  match d1, d2 with
  | Some t1, Some t2 => Finite (inject_Z (t1 - t2))
  | _, _ => NaN
  end.

(** [x > 0]. *)
Definition gt_zero (x : number) : bool :=
  match x with
  | NaN => false
  | Infinity negative => negb negative
  | Finite q => negb (Qle_bool q 0)
  end.

(** [Array.prototype.sort(comparefn)].  The sort is stable and moves an
    element behind another only when [comparefn] puts it strictly after
    (a positive result; [NaN] counts as zero). *)
Definition sort {A : Type} (comparefn : A → A → number) : list A → list A :=
  insertion_sort (λ x y, gt_zero (comparefn x y)).

End JS.

Import JS.

(** ** Data exchanged with Home Assistant *)

(** An entry of [config/entity_registry/list]. *)
Module RegistryEntry.
Record t := mk { entity_id : string; platform : string }.
End RegistryEntry.

(** A state object of [hass.states]. *)
Module Entity.
Record Attributes := mkAttributes {
  friendly_name : option string;
  unit_of_measurement : option string;
  device_class : option string
}.
Record t := mk {
  entity_id : string;
  state : string;
  attributes : Attributes
}.
End Entity.

(** The meter objects built by [getMeters]. *)
Module Meter.
Record t := mk {
  entity_id : string;
  name : string;
  state : string;
  unit : string;
  device_class : string
}.
End Meter.

(** A reading.  Its instants are a point's [timestamp] or an interval's
    [period_start] and [period_end]; the JavaScript field reads
    [reading.timestamp], [reading.period_start] and [reading.period_end]
    are the projections below, [undefined] when the reading has no such
    field. *)
Module Reading.
Inductive Kind := point | interval.

Inductive When :=
| at_instant (timestamp : Z)
| over_period (period_start period_end : Z).

Record t := mk {
  id : nat;
  meter_id : option string;
  value : Q;
  when : When;
  notes : option string;
  created_at : Z
}.

Definition kind (r : t) : Kind :=
  match when r with
  | at_instant _ => point
  | over_period _ _ => interval
  end.

Definition timestamp (r : t) : option Z :=
  match when r with
  | at_instant ts => Some ts
  | over_period _ _ => None
  end.

Definition period_start (r : t) : option Z :=
  match when r with
  | at_instant _ => None
  | over_period s _ => Some s
  end.

Definition period_end (r : t) : option Z :=
  match when r with
  | at_instant _ => None
  | over_period _ e => Some e
  end.

(** The anchor instant: the single instant a reading is ordered by. *)
Definition anchor (r : t) : Z :=
  match when r with
  | at_instant ts => ts
  | over_period _ e => e
  end.

(** [reading.meter_id = e]. *)
Definition set_meter_id (e : string) (r : t) : t :=
  mk (id r) (Some e) (value r) (when r) (notes r) (created_at r).
End Reading.

(** The data of a [metermate] service call. *)
Inductive ServiceCall : Type :=
| add_reading (entity_id : string) (value : number)
    (timestamp : option Z) (notes : option string)
| update_reading (entity_id : string) (reading_id : nat) (value : number)
    (timestamp : option Z) (notes : option string)
| delete_reading (entity_id : string) (reading_id : nat)
| add_meter_reading (entity_id : string) (meter_reading : number)
    (timestamp : Z) (notes : string)
| add_consumption_period (entity_id : string) (consumption : number)
    (period_start period_end : Z) (notes : string)
| rebuild_history (entity_id : string).

(** The shapes a [get_readings] response was seen to take. *)
Inductive Response : Type :=
| in_response_readings (readings : list Reading.t)
| in_readings (readings : list Reading.t)
| bare_array (readings : list Reading.t)
| unexpected.

(** The [hass] object, over the state [W] of the Home Assistant instance
    behind it.  Queries read the state; a service call may change it and
    may be rejected. *)
Record Hass (W : Type) := mkHass {
  states : W → gmap string Entity.t;
  entity_registry_list : W → result (list RegistryEntry.t);
  get_readings : W → string → result Response;
  callService : ServiceCall → W → result unit * W
}.
Arguments mkHass {W}.
Arguments states {W}.
Arguments entity_registry_list {W}.
Arguments get_readings {W}.
Arguments callService {W}.

(** ** [frontend/api.js] *)

Module API.
Section api.
Context {W : Type} (hass : Hass W).

Definition meter_of_entity (entity : Entity.t) : Meter.t :=
  let attributes := Entity.attributes entity in
  Meter.mk
    (Entity.entity_id entity)
    (or_default (Entity.friendly_name attributes) (Entity.entity_id entity))
    (Entity.state entity)
    (or_default (Entity.unit_of_measurement attributes) "kWh")
    (or_default (Entity.device_class attributes) "energy").

(** [async getMeters()]. *)
Definition getMeters (w : W) : result (list Meter.t) :=
  match entity_registry_list hass w with
  | Throw error => Throw error
  | Ok entityRegistry =>
      let meterMateEntityIds :=
        RegistryEntry.entity_id <$>
          filter (λ entity, RegistryEntry.platform entity = "metermate")
                 entityRegistry in
      if decide (length meterMateEntityIds = 0%nat) then Ok []
      else
        let meterMateEntities :=
          filter (λ entity, startsWith (Entity.entity_id entity) "sensor." = true)
                 (omap (λ entityId, states hass w !! entityId)
                       meterMateEntityIds) in
        Ok (meter_of_entity <$> meterMateEntities)
  end.

(** The [readings] array found in a [get_readings] response. *)
Definition extract_readings (result : Response) : list Reading.t :=
  match result with
  | in_response_readings readings => readings
  | in_readings readings => readings
  | bare_array readings => readings
  | unexpected => []
  end.

(** One turn of the loop of [getReadings]: the readings of [meter],
    each given its [meter_id], are pushed onto [allReadings]; a failed
    call is logged and leaves [allReadings] as it is. *)
Definition getReadings_step (w : W)
    (allReadings : list Reading.t) (meter : Meter.t) : list Reading.t :=
  match get_readings hass w (Meter.entity_id meter) with
  | Ok result =>
      allReadings ++
        (Reading.set_meter_id (Meter.entity_id meter) <$> extract_readings result)
  | Throw error => allReadings
  end.

(** [async getReadings()]: the readings of all meters. *)
Definition getReadings (w : W) : result (list Reading.t) :=
  match getMeters w with
  | Throw error => Throw error
  | Ok meters => Ok (foldl (getReadings_step w) [] meters)
  end.

(** [async getMeterReadings(entityId)]. *)
Definition getMeterReadings (entityId : string) (w : W)
    : result (list Reading.t) :=
  match get_readings hass w entityId with
  | Ok result => Ok (extract_readings result)
  | Throw error => Throw error
  end.

(** [async addReading(entityId, value, timestamp, notes)].  [value] is
    already a number ([parseFloat] leaves it as it is); [timestamp] is
    [None] when the argument is falsy. *)
Definition addReading (entityId : string) (value : number)
    (timestamp : option Z) (notes : string) (w : W) : result unit * W :=
  callService hass
    (add_reading entityId value timestamp (or_undefined notes)) w.

(** [async updateReading(entityId, readingId, value, timestamp, notes)]. *)
Definition updateReading (entityId : string) (readingId : nat)
    (value : number) (timestamp : option Z) (notes : string) (w : W)
    : result unit * W :=
  callService hass
    (update_reading entityId readingId value timestamp (or_undefined notes)) w.

(** [async deleteReading(entityId, readingId)]. *)
Definition deleteReading (entityId : string) (readingId : nat) (w : W)
    : result unit * W :=
  callService hass (delete_reading entityId readingId) w.

(** [async callService(serviceName, serviceData)], the generic call: it
    passes the call on and rethrows what the call throws. *)
Definition callService (call : ServiceCall) (w : W) : result unit * W :=
  callService hass call w.

End api.
End API.

(** ** [frontend/ha-metermate-panel.js] *)

Module Panel.

Inductive AlertType := success | error.

Record Alert := mkAlert { type : AlertType; text : string }.

(** The state properties of [HAMeterMatePanel]. *)
Record t := mk {
  _meters : list Meter.t;
  _readings : list Reading.t;
  _selectedMeter : option string;
  _loading : bool;
  _showAddDialog : bool;
  _showEditDialog : bool;
  _editingReading : option Reading.t;
  _alert : option Alert;
  _api : bool
}.

(** A date input as the add handler reads it: [blank] when
    [formData.get] gives [null] or the empty string, else the [Date]
    that [new Date] makes of the text. *)
Inductive DateField := blank | filled (d : Date).

(** The add form, each field as the handler first reads it: numbers
    after [parseFloat], [reading_datetime] after [new Date], [notes]
    with the empty string for none. *)
Record FormData := mkFormData {
  entryType : option string;
  meter_reading : number;
  reading_datetime : Date;
  consumption : number;
  period_start : DateField;
  period_end : DateField;
  notes : string
}.

(** [new Date(field)] for a field known not to be blank. *)
Definition new_Date (f : DateField) : Date :=
  match f with
  | blank => None
  | filled d => d
  end.

Definition is_blank (f : DateField) : bool :=
  match f with
  | blank => true
  | filled _ => false
  end.

(** What a handler runs in: the panel, the Home Assistant instance and
    the service calls sent to it so far, oldest first. *)
Record Ctx (W : Type) := mkCtx {
  panel : t;
  world : W;
  sent : list ServiceCall
}.
Arguments mkCtx {W}.
Arguments panel {W}.
Arguments world {W}.
Arguments sent {W}.

Definition set_alert (a : option Alert) (p : t) : t :=
  mk (_meters p) (_readings p) (_selectedMeter p) (_loading p)
     (_showAddDialog p) (_showEditDialog p) (_editingReading p) a (_api p).

Definition set_loading (b : bool) (p : t) : t :=
  mk (_meters p) (_readings p) (_selectedMeter p) b
     (_showAddDialog p) (_showEditDialog p) (_editingReading p) (_alert p) (_api p).

Definition set_showAddDialog (b : bool) (p : t) : t :=
  mk (_meters p) (_readings p) (_selectedMeter p) (_loading p)
     b (_showEditDialog p) (_editingReading p) (_alert p) (_api p).

Definition set_data (meters : list Meter.t) (readings : list Reading.t)
    (selected : option string) (p : t) : t :=
  mk meters readings selected (_loading p)
     (_showAddDialog p) (_showEditDialog p) (_editingReading p) (_alert p) (_api p).

(** [_getFilteredReadings()]. *)
Definition _getFilteredReadings (p : t) : list Reading.t :=
  match _selectedMeter p with
  | None => []
  | Some selected =>
      if decide (selected = EmptyString) then []
      else
        sort (λ a b, date_sub (Reading.timestamp b) (Reading.timestamp a))
             (filter (λ reading, Reading.meter_id reading = Some selected)
                     (_readings p))
  end.

Section handlers.
Context {W : Type} (hass : Hass W).

(** [_showAlert(type, message)]; the timer that clears the alert later
    is left out. *)
Definition _showAlert (ty : AlertType) (msg : string) (c : Ctx W) : Ctx W :=
  mkCtx (set_alert (Some (mkAlert ty msg)) (panel c)) (world c) (sent c).

Definition _closeAddDialog (c : Ctx W) : Ctx W :=
  mkCtx (set_showAddDialog false (panel c)) (world c) (sent c).

(** A service call run on the instance of the context and recorded. *)
Definition recorded (call : ServiceCall) (run : W → result unit * W)
    (c : Ctx W) : result unit * Ctx W :=
  let '(r, w) := run (world c) in
  (r, mkCtx (panel c) w (sent c ++ [call])).

(** [this._hass.callService("metermate", ...)]. *)
Definition hass_callService (call : ServiceCall) (c : Ctx W)
    : result unit * Ctx W :=
  recorded call (callService hass call) c.

(** [this._api.callService(serviceName, serviceData)]: a [TypeError]
    when there is no API object; otherwise [MeterMateAPI.callService],
    which passes the call on and rethrows. *)
Definition api_callService (call : ServiceCall) (c : Ctx W)
    : result unit * Ctx W :=
  if _api (panel c) then recorded call (API.callService hass call) c
  else (Throw (mkError "Cannot read properties of null"), c).

(** [_loadData()]. *)
Definition _loadData (c : Ctx W) : Ctx W :=
  if negb (_api (panel c)) then c
  else
    let loaded :=
      match API.getMeters hass (world c), API.getReadings hass (world c) with
      | Ok meters, Ok readings =>
          let selected :=
            if bool_decide (0 < length meters)%nat
               && negb (truthy_string (_selectedMeter (panel c)))
            then Meter.entity_id <$> head meters
            else _selectedMeter (panel c) in
          mkCtx (set_data meters readings selected (panel c))
                (world c) (sent c)
      | _, _ => _showAlert error "Failed to load data" c
      end in
    mkCtx (set_loading false (panel loaded)) (world loaded) (sent loaded).

(** The value check of both branches of [_handleAddReading]:
    [!x || x < 0]. *)
Definition invalid_value (x : number) : bool :=
  negb (truthy x) || lt_zero x.

(** The body of the [try] block of [_handleAddReading]; [Ok] covers
    both running to the end and an early [return]. *)
Definition _handleAddReading_try (selected : string) (form : FormData)
    (c : Ctx W) : result unit * Ctx W :=
  let finish (c : Ctx W) := (Ok (), _loadData (_closeAddDialog c)) in
  if decide (entryType form = Some "meter_reading") then
      let meterReading := meter_reading form in
      if invalid_value meterReading
      then (Ok (), _showAlert error "Please enter a valid meter reading" c)
      else
        match toISOString (reading_datetime form) with
        | Throw e => (Throw e, c)
        | Ok timestamp =>
            match api_callService
                    (add_meter_reading selected meterReading timestamp
                                       (notes form)) c with
            | (Throw e, c') => (Throw e, c')
            | (Ok _, c') =>
                finish (_showAlert success "Meter reading added successfully" c')
            end
        end
  else if decide (entryType form = Some "consumption") then
      let consumption := consumption form in
      if invalid_value consumption
      then (Ok (), _showAlert error "Please enter a valid consumption amount" c)
      else if is_blank (period_start form) || is_blank (period_end form)
      then (Ok (), _showAlert error
                     "Please specify both period start and end dates" c)
      else if date_ge (new_Date (period_start form)) (new_Date (period_end form))
      then (Ok (), _showAlert error "Period start must be before period end" c)
      else
        match toISOString (new_Date (period_start form)),
              toISOString (new_Date (period_end form)) with
        | Throw e, _ => (Throw e, c)
        | Ok _, Throw e => (Throw e, c)
        | Ok periodStart, Ok periodEnd =>
            match api_callService
                    (add_consumption_period selected consumption
                                            periodStart periodEnd
                                            (notes form)) c with
            | (Throw e, c') => (Throw e, c')
            | (Ok _, c') =>
                finish (_showAlert success
                          "Consumption period added successfully" c')
            end
        end
  else finish c.

(** [_handleAddReading(event)]. *)
Definition _handleAddReading (form : FormData) (c : Ctx W) : Ctx W :=
  match _selectedMeter (panel c) with
  | Some selected =>
      if decide (selected = EmptyString)
      then _showAlert error "Please select a meter first" c
      else
        match _handleAddReading_try selected form c with
        | (Ok _, c') => c'
        | (Throw e, c') =>
            _showAlert error
              ("Failed to add reading: " ++ message_or_error e) c'
        end
  | None => _showAlert error "Please select a meter first" c
  end.

(** [_rebuildHistory()]; [confirmed] is the answer to the [confirm]
    dialog. *)
Definition _rebuildHistory (confirmed : bool) (c : Ctx W) : Ctx W :=
  match _selectedMeter (panel c) with
  | Some selected =>
      if decide (selected = EmptyString)
      then _showAlert error "Please select a meter first" c
      else if negb confirmed then c
      else
        match hass_callService (rebuild_history selected) c with
        | (Ok _, c') =>
            _loadData (_showAlert success "History rebuilt successfully" c')
        | (Throw e, c') =>
            _showAlert error ("Failed to rebuild history: " ++ message e) c'
        end
  | None => _showAlert error "Please select a meter first" c
  end.

(** *** The other handlers of the panel *)

Definition set_selectedMeter (selected : option string) (p : t) : t :=
  mk (_meters p) (_readings p) selected (_loading p)
     (_showAddDialog p) (_showEditDialog p) (_editingReading p) (_alert p) (_api p).

Definition set_editing (show : bool) (reading : option Reading.t) (p : t) : t :=
  mk (_meters p) (_readings p) (_selectedMeter p) (_loading p)
     (_showAddDialog p) show reading (_alert p) (_api p).

Definition set_api (b : bool) (p : t) : t :=
  mk (_meters p) (_readings p) (_selectedMeter p) (_loading p)
     (_showAddDialog p) (_showEditDialog p) (_editingReading p) (_alert p) b.

(** [set hass(value)] for a [hass] object; [MeterMateAPI_loaded] says
    whether [window.MeterMateAPI] is there yet.  The load it starts is
    run to its end. *)
Definition set_hass (MeterMateAPI_loaded : bool) (c : Ctx W) : Ctx W :=
  if MeterMateAPI_loaded
  then _loadData (mkCtx (set_api true (panel c)) (world c) (sent c))
  else c.

(** [_handleMeterSelect(meterId)]. *)
Definition _handleMeterSelect (meterId : string) (c : Ctx W) : Ctx W :=
  mkCtx (set_selectedMeter (Some meterId) (panel c)) (world c) (sent c).

(** [_refreshMeters()]. *)
Definition _refreshMeters (c : Ctx W) : Ctx W :=
  _showAlert success "Meters refreshed" (_loadData c).

(** [_openAddDialog()]. *)
Definition _openAddDialog (c : Ctx W) : Ctx W :=
  mkCtx (set_showAddDialog true (panel c)) (world c) (sent c).

(** [_openEditDialog(reading)]. *)
Definition _openEditDialog (reading : Reading.t) (c : Ctx W) : Ctx W :=
  mkCtx (set_editing true (Some reading) (panel c)) (world c) (sent c).

(** [_closeEditDialog()]. *)
Definition _closeEditDialog (c : Ctx W) : Ctx W :=
  mkCtx (set_editing false None (panel c)) (world c) (sent c).

(** The edit form as the handler reads it: [value] after [parseFloat],
    [datetime] as the timestamp argument of [updateReading] ([None] when
    the field is empty), [notes] with the empty string for none. *)
Record EditForm := mkEditForm {
  edit_value : number;
  edit_datetime : option Z;
  edit_notes : string
}.

(** [_handleEditReading(event)].  The result is [None] when the reading
    being edited carries no [meter_id]: the call would then go out
    without an entity id, which [ServiceCall] does not describe. *)
Definition _handleEditReading (form : EditForm) (c : Ctx W) : option (Ctx W) :=
  match _editingReading (panel c) with
  | None => Some c
  | Some reading =>
      match Reading.meter_id reading with
      | None => None
      | Some meter_id =>
          let attempt :=
            if _api (panel c)
            then recorded
                   (update_reading meter_id (Reading.id reading)
                      (edit_value form) (edit_datetime form)
                      (or_undefined (edit_notes form)))
                   (API.updateReading hass meter_id (Reading.id reading)
                      (edit_value form) (edit_datetime form) (edit_notes form))
                   c
            else (Throw (mkError "Cannot read properties of null"), c) in
          Some
            match attempt with
            | (Ok _, c') =>
                _loadData
                  (_closeEditDialog
                     (_showAlert success "Reading updated successfully" c'))
            | (Throw _, c') => _showAlert error "Failed to update reading" c'
            end
      end
  end.

(** [_handleDeleteReading(meterId, readingId)]; [confirmed] is the answer
    to the [confirm] dialog. *)
Definition _handleDeleteReading (meterId : string) (readingId : nat)
    (confirmed : bool) (c : Ctx W) : Ctx W :=
  if negb confirmed then c
  else
    let attempt :=
      if _api (panel c)
      then recorded (delete_reading meterId readingId)
                    (API.deleteReading hass meterId readingId) c
      else (Throw (mkError "Cannot read properties of null"), c) in
    match attempt with
    | (Ok _, c') =>
        _loadData (_showAlert success "Reading deleted successfully" c')
    | (Throw _, c') => _showAlert error "Failed to delete reading" c'
    end.

End handlers.
End Panel.

(** ** The core behind the services

    The Python side of the integration (validation, reading store,
    conversion engine, history rebuilder, statistics publisher) is not part
    of the frontend sources; the frontend reaches it through the service
    calls above.  It is modelled here from its specification. *)

Module Core.

(** Modelled from the spec: the error taxonomy of the core. *)
Inductive ErrorKind :=
| InvalidValue
| InvalidPeriod
| DuplicateAnchor
| NonIncreasingReading
| NotFound
| PublishFailure
| StoreIOFailure.

(** Modelled from the spec: a candidate reading as [addReading] takes it
    (kind, value, anchor fields, optional notes). *)
Record ReadingInput := mkInput {
  kind : Reading.Kind;
  value : number;
  timestamp : option Z;
  period_start : option Z;
  period_end : option Z;
  notes : option string
}.

(** Modelled from the spec: the meter configuration unit. *)
Record MeterConfig := mkMeterConfig {
  unit : string;
  device_class : string;
  initial_offset : Q
}.

(** Modelled from the spec: a statistic point, the pair of a timestamp
    and the cumulative total as of it. *)
Definition StatPoint : Type := Z * Q.

(** Modelled from the spec: the two policies the engine may follow on a
    point reading below the running total. *)
Inductive Policy := reject | clamp.

(** Modelled from the spec: the result of a rebuild; an item error names
    the reading by its id. *)
Record RebuildResult := mkRebuildResult {
  points_published : nat;
  errors : list (nat * ErrorKind)
}.

(** Modelled from the spec: the state the core works on, namely the
    Reading Store (readings per meter and the next free id), the meter
    configurations, and the external statistics store (metadata records
    and the series published per statistic id). *)
Record State := mkState {
  readings : gmap string (list Reading.t);
  next_id : nat;
  meters : gmap string MeterConfig;
  metadata : gset string;
  published : gmap string (list StatPoint)
}.

(** *** Validation Layer *)

(** Modelled from the spec: check 1, [value] is a finite number at
    least 0. *)
Definition check_value (v : number) : ErrorKind + Q :=
  match v with
  | Finite q => if Qle_bool 0 q then inr q else inl InvalidValue
  | _ => inl InvalidValue
  end.

(** Modelled from the spec: checks 2 and 3, an interval needs both ends
    with the start strictly first; a point without timestamp gets the
    current time. *)
Definition check_when (now : Z) (input : ReadingInput)
    : ErrorKind + Reading.When :=
  match kind input with
  | Reading.interval =>
      match period_start input, period_end input with
      | Some s, Some e =>
          if bool_decide (s < e) then inr (Reading.over_period s e)
          else inl InvalidPeriod
      | _, _ => inl InvalidPeriod
      end
  | Reading.point =>
      inr (Reading.at_instant (default now (timestamp input)))
  end.

Definition anchor_of (w : Reading.When) : Z :=
  match w with
  | Reading.at_instant ts => ts
  | Reading.over_period _ e => e
  end.

(** Modelled from the spec: check 4, the anchor instant is not that of
    an existing reading of the meter. *)
Definition check_unique (existing : list Reading.t) (w : Reading.When)
    : ErrorKind + () :=
  if decide (anchor_of w ∈ Reading.anchor <$> existing)
  then inl DuplicateAnchor else inr ().

(** Modelled from the spec: the Validation Layer, the four checks in
    order, giving the normalized value and instants or the first
    rejection reason. *)
Definition validate (now : Z) (existing : list Reading.t)
    (input : ReadingInput) : ErrorKind + Q * Reading.When :=
  match check_value (value input) with
  | inl e => inl e
  | inr q =>
      match check_when now input with
      | inl e => inl e
      | inr w =>
          match check_unique existing w with
          | inl e => inl e
          | inr _ => inr (q, w)
          end
      end
  end.

(** *** Reading Store *)

(** Modelled from the spec: [list(meter_id)]. *)
Definition store_list (meter_id : string) (st : State) : list Reading.t :=
  default [] (readings st !! meter_id).

Definition set_readings (meter_id : string) (rs : list Reading.t)
    (st : State) : State :=
  mkState (<[meter_id := rs]> (readings st)) (next_id st) (meters st)
          (metadata st) (published st).

(** Modelled from the spec: [add], which gives the reading a fresh id
    and its creation time and appends it to the meter's readings. *)
Definition store_add (meter_id : string) (q : Q) (w : Reading.When)
    (notes : option string) (now : Z) (st : State) : Reading.t * State :=
  let r := Reading.mk (next_id st) (Some meter_id) q w notes now in
  (r, mkState (<[meter_id := store_list meter_id st ++ [r]]> (readings st))
              (S (next_id st)) (meters st) (metadata st) (published st)).

(** Modelled from the spec: [get]. *)
Definition store_get (meter_id : string) (reading_id : nat) (st : State)
    : option Reading.t :=
  head (filter (λ r, Reading.id r = reading_id) (store_list meter_id st)).

(** Modelled from the spec: [delete]. *)
Definition store_delete (meter_id : string) (reading_id : nat) (st : State)
    : State :=
  set_readings meter_id
    (filter (λ r, Reading.id r ≠ reading_id) (store_list meter_id st)) st.

(** Modelled from the spec: [update], which keeps the id, the meter and
    the creation time of the reading it replaces. *)
Definition store_update (meter_id : string) (old : Reading.t) (q : Q)
    (w : Reading.When) (notes : option string) (st : State)
    : Reading.t * State :=
  let r := Reading.mk (Reading.id old) (Reading.meter_id old) q w notes
                      (Reading.created_at old) in
  (r, set_readings meter_id
        ((λ r', if decide (Reading.id r' = Reading.id old) then r else r')
           <$> store_list meter_id st) st).

(** *** Conversion Engine *)

(** Modelled from the spec: step 1 of the engine, the readings ordered
    by anchor instant ascending. *)
Definition sort_by_anchor : list Reading.t → list Reading.t :=
  insertion_sort (λ x y, bool_decide (Reading.anchor y < Reading.anchor x)).

(** Modelled from the spec: the [NonIncreasingReading] condition, a point
    reading whose value lies below the running total. *)
Definition offends (running : Q) (r : Reading.t) : bool :=
  match Reading.when r with
  | Reading.at_instant _ => negb (Qle_bool running (Reading.value r))
  | Reading.over_period _ _ => false
  end.

(** Modelled from the spec: steps 3 to 5, the running total after a
    reading.  An interval adds its value; a point sets the total to its
    value, unless it offends, when the total stays. *)
Definition total_after (running : Q) (r : Reading.t) : Q :=
  match Reading.when r with
  | Reading.over_period _ _ => (running + Reading.value r)%Q
  | Reading.at_instant _ =>
      if offends running r then running else Reading.value r
  end.

(** Modelled from the spec: the statistic point a reading gives, at its
    anchor instant; an offending point gives none under [reject] and
    the unchanged total under [clamp]. *)
Definition emit (policy : Policy) (running : Q) (r : Reading.t)
    : option StatPoint :=
  if offends running r then
    match policy with
    | reject => None
    | clamp => Some (Reading.anchor r, running)
    end
  else Some (Reading.anchor r, total_after running r).

(** Modelled from the spec: steps 2 to 6 over readings in anchor
    order. *)
Fixpoint accumulate (policy : Policy) (running : Q) (rs : list Reading.t)
    : list StatPoint :=
  match rs with
  | [] => []
  | r :: rs' =>
      let rest := accumulate policy (total_after running r) rs' in
      match emit policy running r with
      | Some p => p :: rest
      | None => rest
      end
  end.

(** Modelled from the spec: the readings the engine reports as
    [NonIncreasingReading]. *)
Fixpoint offending (running : Q) (rs : list Reading.t) : list Reading.t :=
  match rs with
  | [] => []
  | r :: rs' =>
      let rest := offending (total_after running r) rs' in
      if offends running r then r :: rest else rest
  end.

(** Modelled from the spec: the Conversion Engine, from the readings of
    one meter and its initial offset to the series of statistic
    points. *)
Definition convert (policy : Policy) (initial_offset : Q)
    (rs : list Reading.t) : list StatPoint :=
  accumulate policy initial_offset (sort_by_anchor rs).

Section core.
Context (policy : Policy).

(** *** Statistics Publisher Adapter *)

(** Modelled from the spec: [ensureMetadata]. *)
Definition ensureMetadata (statistic_id : string) (st : State) : State :=
  mkState (readings st) (next_id st) (meters st)
          ({[statistic_id]} ∪ metadata st) (published st).

(** Modelled from the spec: [replaceSeries], which puts the complete
    series in the place of the one published before. *)
Definition replaceSeries (statistic_id : string) (points : list StatPoint)
    (st : State) : State :=
  mkState (readings st) (next_id st) (meters st) (metadata st)
          (<[statistic_id := points]> (published st)).

(** *** History Rebuilder *)

Definition offset_of (meter_id : string) (st : State) : Q :=
  match meters st !! meter_id with
  | Some m => initial_offset m
  | None => 0%Q
  end.

(** Modelled from the spec: the series a rebuild derives from the
    readings now in the store. *)
Definition series (meter_id : string) (st : State) : list StatPoint :=
  convert policy (offset_of meter_id st) (store_list meter_id st).

(** Modelled from the spec: [rebuild(meter_id)], which fetches the
    readings of the meter, runs the engine and has the publisher
    replace the meter's series by the complete new one. *)
Definition rebuild (meter_id : string) (st : State)
    : RebuildResult * State :=
  let points := series meter_id st in
  let reported :=
    (λ r, (Reading.id r, NonIncreasingReading)) <$>
      offending (offset_of meter_id st)
                (sort_by_anchor (store_list meter_id st)) in
  (mkRebuildResult (length points) reported,
   replaceSeries meter_id points (ensureMetadata meter_id st)).

(** *** Operations exposed to the service layer *)

(** Modelled from the spec: [addReading]. *)
Definition addReading (meter_id : string) (input : ReadingInput)
    (now : Z) (st : State) : (ErrorKind + Reading.t) * State :=
  match validate now (store_list meter_id st) input with
  | inl e => (inl e, st)
  | inr (q, w) =>
      let '(r, st') := store_add meter_id q w (notes input) now st in
      (inr r, snd (rebuild meter_id st'))
  end.

(** Modelled from the spec: [updateReading]; the new fields are
    validated against the other readings of the meter. *)
Definition updateReading (meter_id : string) (reading_id : nat)
    (fields : ReadingInput) (now : Z) (st : State)
    : (ErrorKind + Reading.t) * State :=
  match store_get meter_id reading_id st with
  | None => (inl NotFound, st)
  | Some old =>
      let others :=
        filter (λ r, Reading.id r ≠ reading_id) (store_list meter_id st) in
      match validate now others fields with
      | inl e => (inl e, st)
      | inr (q, w) =>
          let '(r, st') := store_update meter_id old q w (notes fields) st in
          (inr r, snd (rebuild meter_id st'))
      end
  end.

(** Modelled from the spec: [deleteReading]. *)
Definition deleteReading (meter_id : string) (reading_id : nat)
    (st : State) : (ErrorKind + ()) * State :=
  match store_get meter_id reading_id st with
  | None => (inl NotFound, st)
  | Some _ =>
      (inr (), snd (rebuild meter_id (store_delete meter_id reading_id st)))
  end.

(** Modelled from the spec: the item-by-item pass of [bulkImport]; an
    accepted item is stored before the next one is validated. *)
Fixpoint bulkImport_items (meter_id : string) (inputs : list ReadingInput)
    (now : Z) (st : State)
    : list Reading.t * list (ReadingInput * ErrorKind) * State :=
  match inputs with
  | [] => ([], [], st)
  | input :: inputs' =>
      match validate now (store_list meter_id st) input with
      | inl e =>
          let '(accepted, rejected, st') :=
            bulkImport_items meter_id inputs' now st in
          (accepted, (input, e) :: rejected, st')
      | inr (q, w) =>
          let '(r, st1) := store_add meter_id q w (notes input) now st in
          let '(accepted, rejected, st') :=
            bulkImport_items meter_id inputs' now st1 in
          (r :: accepted, rejected, st')
      end
  end.

(** Modelled from the spec: [bulkImport], with one rebuild at the
    end. *)
Definition bulkImport (meter_id : string) (inputs : list ReadingInput)
    (now : Z) (st : State)
    : list Reading.t * list (ReadingInput * ErrorKind) * State :=
  let '(accepted, rejected, st') :=
    bulkImport_items meter_id inputs now st in
  (accepted, rejected, snd (rebuild meter_id st')).

(** Modelled from the spec: the optional bounds [start] and [end] of
    [getReadings], taken on the anchor instant and inclusive. *)
Definition in_range (start end_ : option Z) (r : Reading.t) : bool :=
  from_option (λ s, bool_decide (s ≤ Reading.anchor r)) true start
  && from_option (λ e, bool_decide (Reading.anchor r ≤ e)) true end_.

(** Modelled from the spec: [getReadings(meter_id, start?, end?)], the
    readings of the meter in the range, by anchor instant ascending. *)
Definition getReadings (meter_id : string) (start end_ : option Z)
    (st : State) : list Reading.t :=
  filter (λ r, in_range start end_ r = true)
         (sort_by_anchor (store_list meter_id st)).

(** *** The Home Assistant instance over the core *)

(** The instance: the core, the entity states and registry of Home
    Assistant, and the wall clock. *)
Record World := mkWorld {
  core : State;
  ha_states : gmap string Entity.t;
  ha_registry : list RegistryEntry.t;
  now : Z
}.

Definition set_core (st : State) (w : World) : World :=
  mkWorld st (ha_states w) (ha_registry w) (now w).

(** Modelled from the spec: the specific reason string of a
    rejection. *)
Definition reason (e : ErrorKind) : string :=
  match e with
  | InvalidValue => "InvalidValue"
  | InvalidPeriod => "InvalidPeriod"
  | DuplicateAnchor => "DuplicateAnchor"
  | NonIncreasingReading => "NonIncreasingReading"
  | NotFound => "NotFound"
  | PublishFailure => "PublishFailure"
  | StoreIOFailure => "StoreIOFailure"
  end.

Definition respond {A : Type} (w : World) (r : (ErrorKind + A) * State)
    : result () * World :=
  match r with
  | (inl e, st) => (Throw (mkError (reason e)), set_core st w)
  | (inr _, st) => (Ok (), set_core st w)
  end.

(** Modelled from the spec: the service layer, which hands each
    [metermate] service call to the core operation it names. *)
Definition service (call : ServiceCall) (w : World) : result () * World :=
  match call with
  | add_reading entity_id v ts notes =>
      respond w (addReading entity_id
                   (mkInput Reading.point v ts None None notes)
                   (now w) (core w))
  | add_meter_reading entity_id v ts notes =>
      respond w (addReading entity_id
                   (mkInput Reading.point v (Some ts) None None (Some notes))
                   (now w) (core w))
  | add_consumption_period entity_id v s e notes =>
      respond w (addReading entity_id
                   (mkInput Reading.interval v None (Some s) (Some e)
                            (Some notes))
                   (now w) (core w))
  | update_reading entity_id reading_id v ts notes =>
      respond w (updateReading entity_id reading_id
                   (mkInput Reading.point v ts None None notes)
                   (now w) (core w))
  | delete_reading entity_id reading_id =>
      respond w (deleteReading entity_id reading_id (core w))
  | rebuild_history entity_id =>
      (Ok (), set_core (snd (rebuild entity_id (core w))) w)
  end.

Definition hass : Hass World :=
  mkHass ha_states
         (λ w, Ok (ha_registry w))
         (λ w entity_id,
            Ok (in_response_readings
                  (getReadings entity_id None None (core w))))
         service.

End core.
End Core.

(** ** Auxiliary notions used in the statements *)

(** The readings one meter contributes to [getReadings]: those of its
    [get_readings] response, each carrying the meter's id; none when the
    call fails. *)
Definition fetched {W : Type} (hass : Hass W) (w : W) (meter : Meter.t)
    : list Reading.t :=
  match get_readings hass w (Meter.entity_id meter) with
  | Ok result =>
      Reading.set_meter_id (Meter.entity_id meter) <$> API.extract_readings result
  | Throw _ => []
  end.

(** Newest first: both readings carry a timestamp and the first is not
    older than the second. *)
Definition not_older (a b : Reading.t) : Prop :=
  match Reading.timestamp a, Reading.timestamp b with
  | Some ta, Some tb => tb ≤ ta
  | _, _ => False
  end.

(** Ascending anchor instants. *)
Definition anchor_le (a b : Reading.t) : Prop :=
  Reading.anchor a ≤ Reading.anchor b.

(** The running total before the [i]-th point of a series: the initial
    offset for the first point, else the total of the point before. *)
Definition previous_total (initial_offset : Q) (points : list Core.StatPoint)
    (i : nat) : Q :=
  match i with
  | O => initial_offset
  | S j => from_option snd initial_offset (points !! j)
  end.

(** The anchor instant of a candidate reading: a point's timestamp (the
    current time when it gives none) or an interval's [period_end]. *)
Definition input_anchor (now : Z) (input : Core.ReadingInput) : option Z :=
  match Core.kind input with
  | Reading.point => Some (default now (Core.timestamp input))
  | Reading.interval => Core.period_end input
  end.

(** The period of a consumption entry is in order: both dates are filled
    in, both are dates, and the start [s] is strictly before the end [e]. *)
Definition period_ok (form : Panel.FormData) (s e : Z) : Prop :=
  Panel.period_start form = Panel.filled (Some s)
  ∧ Panel.period_end form = Panel.filled (Some e)
  ∧ s < e.

(** The alerts by which the add handler turns down the period of a
    consumption entry. *)
Definition period_alerts : list string :=
  ["Please specify both period start and end dates";
   "Period start must be before period end";
   "Failed to add reading: Invalid time value"].

(** The one service call a submission of the add form stands for, for
    the meter [selected]: a meter reading with its date, or a consumption
    with its period in order. *)
Definition add_call (form : Panel.FormData) (selected : string)
    (call : ServiceCall) : Prop :=
  (Panel.entryType form = Some "meter_reading"
   ∧ ∃ t, Panel.reading_datetime form = Some t
          ∧ call = add_meter_reading selected (Panel.meter_reading form) t
                                     (Panel.notes form))
  ∨ (Panel.entryType form = Some "consumption"
     ∧ ∃ s e, period_ok form s e
              ∧ call = add_consumption_period selected (Panel.consumption form)
                                              s e (Panel.notes form)).

(** The alerts by which the add handler reports an entry as added. *)
Definition added_alerts : list string :=
  ["Meter reading added successfully";
   "Consumption period added successfully"].

(** The meters and readings a panel holds fit together: every reading
    carries the entity id of one of the meters. *)
Definition readings_of_meters (p : Panel.t) : Prop :=
  ∀ r, r ∈ Panel._readings p →
       ∃ m, m ∈ Panel._meters p ∧ Reading.meter_id r = Some (Meter.entity_id m).

(** ** Sample data *)

Module Sample.

Definition meter_a : string := "sensor.meter_a".
Definition meter_b : string := "sensor.meter_b".

Definition entity (entity_id : string) : Entity.t :=
  Entity.mk entity_id "0" (Entity.mkAttributes None None None).

Definition registry : list RegistryEntry.t :=
  [RegistryEntry.mk meter_a "metermate"; RegistryEntry.mk meter_b "metermate"].

Definition entities : gmap string Entity.t :=
  <[meter_a := entity meter_a]> (<[meter_b := entity meter_b]> ∅).

Definition reading (id : nat) (ts : Z) (q : Q) : Reading.t :=
  Reading.mk id None q (Reading.at_instant ts) None 0.

(** An instance whose [get_readings] answers from a fixed table. *)
Definition fixed_hass (answers : string → result Response) : Hass () :=
  mkHass (λ _, entities) (λ _, Ok registry) (λ _, answers)
         (λ _ w, (Ok (), w)).

(** Meter [meter_a] has two readings, oldest first; the call for
    [meter_b] fails. *)
Definition answers_b_fails (entity_id : string) : result Response :=
  if decide (entity_id = meter_a)
  then Ok (in_response_readings [reading 1 1000 10%Q; reading 2 2000 25%Q])
  else Throw (mkError "service unavailable").

(** The same, but the call for [meter_b] succeeds with no readings. *)
Definition answers_b_empty (entity_id : string) : result Response :=
  if decide (entity_id = meter_a)
  then Ok (in_response_readings [reading 1 1000 10%Q; reading 2 2000 25%Q])
  else Ok (in_response_readings []).

Definition empty_panel : Panel.t :=
  Panel.mk [] [] None false false false None None true.

Definition start {W : Type} (w : W) : Panel.Ctx W :=
  Panel.mkCtx empty_panel w [].

Definition interval (id : nat) (s e : Z) (q : Q) : Reading.t :=
  Reading.mk id (Some meter_a) q (Reading.over_period s e) None 0.

(** A core with one meter, [meter_a], and one point reading at the
    instant 1000. *)
Definition core_state : Core.State :=
  Core.mkState
    {[meter_a := [Reading.mk 0 (Some meter_a) 15650 (Reading.at_instant 1000)
                             None 900]]}
    1
    {[meter_a := Core.mkMeterConfig "kWh" "energy" 0]}
    ∅ ∅.

Definition core_world : Core.World :=
  Core.mkWorld core_state entities registry 5000.

Definition selected_panel : Panel.t :=
  Panel.mk [] [] (Some meter_a) false true false None None true.

Definition selected {W : Type} (w : W) : Panel.Ctx W :=
  Panel.mkCtx selected_panel w [].

(** An instance that turns every service call down. *)
Definition rejecting_hass : Hass () :=
  mkHass (λ _, entities) (λ _, Ok registry) (λ _, answers_b_empty)
         (λ _ w, (Throw (mkError "Service not available"), w)).

(** An instance whose entity registry cannot be read. *)
Definition unreachable_hass : Hass () :=
  mkHass (λ _, entities) (λ _, Throw (mkError "Connection lost"))
         (λ _, answers_b_empty) (λ _ w, (Ok (), w)).

Definition meter_reading_form (x : number) : Panel.FormData :=
  Panel.mkFormData (Some "meter_reading") x (Some 1000) NaN
                   Panel.blank Panel.blank EmptyString.

Definition consumption_form (x : number) (s e : Panel.DateField)
    : Panel.FormData :=
  Panel.mkFormData (Some "consumption") NaN None x s e "May bill".

End Sample.

(** ** Facts on the insertion sort *)

Section insertion_sort_facts.
Context {A : Type} (after : A → A → bool).

Lemma insert_sorted_Permutation x l : insert_sorted after x l ≡ₚ x :: l.
Proof.
  induction l as [|y l IH]; simpl; [done|].
  destruct (after x y); [|done].
  rewrite IH. apply Permutation_swap.
Qed.

Lemma insertion_sort_Permutation l : insertion_sort after l ≡ₚ l.
Proof.
  induction l as [|x l IH]; simpl; [done|].
  by rewrite insert_sorted_Permutation, IH.
Qed.

Lemma insertion_sort_fixed l :
  Sorted (λ x y, after x y = false) l → insertion_sort after l = l.
Proof.
  induction 1 as [|x l _ IH Hhd]; simpl; [done|].
  rewrite IH. destruct Hhd as [|y l' Hxy]; simpl; [done|].
  by rewrite Hxy.
Qed.

Section sorted.
Context (P : A → Prop) (R : relation A).
Hypothesis before : ∀ x y, P x → P y → after x y = false → R x y.
Hypothesis behind : ∀ x y, P x → P y → after x y = true → R y x.

Lemma insert_sorted_Sorted x l :
  P x → Forall P l → Sorted R l → Sorted R (insert_sorted after x l).
Proof.
  intros Hx HP Hl. induction Hl as [|y l Hl IH Hhd]; simpl.
  { repeat constructor. }
  apply Forall_cons in HP as [Hy HP].
  destruct (after x y) eqn:Hxy.
  - constructor; [by apply IH|].
    destruct Hhd as [|z l' Hyz]; simpl.
    + constructor. by apply behind.
    + destruct (after x z); constructor; [done|by apply behind].
  - repeat constructor; [done..|]. by apply before.
Qed.

Lemma insertion_sort_Sorted l : Forall P l → Sorted R (insertion_sort after l).
Proof.
  induction 1 as [|x l Hx HP IH]; simpl; [constructor|].
  apply insert_sorted_Sorted; [done| |done].
  by rewrite insertion_sort_Permutation.
Qed.
End sorted.
End insertion_sort_facts.

(** ** [api.js]: meters *)

Lemma or_default_nonempty s dflt : dflt ≠ EmptyString → or_default s dflt ≠ EmptyString.
Proof.
  intros Hd. unfold or_default. destruct s as [v|]; [|done].
  by destruct (decide (v = EmptyString)).
Qed.

Section getMeters_facts.
Context {W : Type} (hass : Hass W).

(** C10.  Every meter that [getMeters] returns is built from the state of
    an entity that the entity registry lists under the platform
    [metermate]; its entity id starts with [sensor.]; its unit and device
    class are never empty, and are [kWh] and [energy] when the entity has
    no such attribute.  The states are keyed by their own entity id, as
    [hass.states] is. *)
Theorem getMeters_metermate_sensors (w : W) (meters : list Meter.t) (m : Meter.t) :
  (∀ k entity, states hass w !! k = Some entity → Entity.entity_id entity = k) →
  API.getMeters hass w = Ok meters →
  m ∈ meters →
  ∃ registry entry entity,
    entity_registry_list hass w = Ok registry
    ∧ entry ∈ registry
    ∧ RegistryEntry.platform entry = "metermate"
    ∧ RegistryEntry.entity_id entry = Meter.entity_id m
    ∧ startsWith (RegistryEntry.entity_id entry) "sensor." = true
    ∧ states hass w !! Meter.entity_id m = Some entity
    ∧ Meter.unit m ≠ EmptyString ∧ Meter.device_class m ≠ EmptyString
    ∧ (Entity.unit_of_measurement (Entity.attributes entity) = None →
       Meter.unit m = "kWh")
    ∧ (Entity.device_class (Entity.attributes entity) = None →
       Meter.device_class m = "energy").
Proof.
  intros Hkeys Hget Hm. unfold API.getMeters in Hget.
  destruct (entity_registry_list hass w) as [registry|] eqn:Hreg; [|done].
  case_decide; simplify_eq; [by apply elem_of_nil in Hm|].
  apply list_elem_of_fmap in Hm as (entity & -> & Hentity).
  apply list_elem_of_filter in Hentity as [Hsensor Hentity].
  apply list_elem_of_omap in Hentity as (k & Hk & Hlookup).
  apply list_elem_of_fmap in Hk as (entry & -> & Hentry).
  apply list_elem_of_filter in Hentry as [Hplatform Hentry].
  pose proof (Hkeys _ _ Hlookup) as Hid.
  exists registry, entry, entity. simpl.
  rewrite Hid. split_and!; try done.
  - by rewrite <-Hid.
  - by apply or_default_nonempty.
  - by apply or_default_nonempty.
  - by intros ->.
  - by intros ->.
Qed.

End getMeters_facts.

Lemma getMeters_metermate_sensors_witness :
  ∃ m, m ∈ [API.meter_of_entity (Sample.entity Sample.meter_a);
            API.meter_of_entity (Sample.entity Sample.meter_b)]
       ∧ Meter.entity_id m = Sample.meter_a ∧ Meter.unit m = "kWh".
Proof.
  pose (h := Sample.fixed_hass Sample.answers_b_fails).
  assert (Hkeys : ∀ k entity,
             states h () !! k = Some entity → Entity.entity_id entity = k).
  { intros k entity. simpl. unfold Sample.entities.
    intros H. apply lookup_insert_Some in H as [[<- <-]|[_ H]]; [done|].
    apply lookup_insert_Some in H as [[<- <-]|[_ H]]; [done|].
    by rewrite lookup_empty in H. }
  assert (Hget : API.getMeters h () =
                 Ok [API.meter_of_entity (Sample.entity Sample.meter_a);
                     API.meter_of_entity (Sample.entity Sample.meter_b)])
    by (vm_compute; reflexivity).
  assert (Hm : API.meter_of_entity (Sample.entity Sample.meter_a) ∈
               [API.meter_of_entity (Sample.entity Sample.meter_a);
                API.meter_of_entity (Sample.entity Sample.meter_b)])
    by (left).
  destruct (getMeters_metermate_sensors h () _ _ Hkeys Hget Hm)
    as (registry & entry & entity & _ & _ & _ & _ & _ & Hl & _ & _ & Hunit & _).
  exists (API.meter_of_entity (Sample.entity Sample.meter_a)).
  split; [exact Hm|]. split; [reflexivity|].
  apply Hunit.
  assert (entity = Sample.entity Sample.meter_a) as ->; [|reflexivity].
  simpl in Hl. unfold Sample.entities in Hl.
  rewrite lookup_insert_eq in Hl. congruence.
Defined.

(** ** [api.js]: the readings of all meters *)

Section getReadings_facts.
Context {W : Type} (hass : Hass W).

Lemma getReadings_step_fetched w allReadings meter :
  API.getReadings_step hass w allReadings meter
  = allReadings ++ fetched hass w meter.
Proof.
  unfold API.getReadings_step, fetched.
  destruct (get_readings hass w (Meter.entity_id meter)); [done|].
  by rewrite app_nil_r.
Qed.

Lemma getReadings_loop w meters allReadings :
  foldl (API.getReadings_step hass w) allReadings meters
  = allReadings ++ (meters ≫= fetched hass w).
Proof.
  revert allReadings.
  induction meters as [|meter meters IH]; intros allReadings; simpl.
  - by rewrite app_nil_r.
  - rewrite IH, getReadings_step_fetched. by rewrite <-app_assoc.
Qed.

Lemma getReadings_fetched w meters :
  API.getMeters hass w = Ok meters →
  API.getReadings hass w = Ok (meters ≫= fetched hass w).
Proof.
  intros Hm. unfold API.getReadings. rewrite Hm.
  by rewrite getReadings_loop.
Qed.

Lemma fetched_meter_id w meter r :
  r ∈ fetched hass w meter → Reading.meter_id r = Some (Meter.entity_id meter).
Proof.
  unfold fetched.
  destruct (get_readings hass w (Meter.entity_id meter)); [|by intros ?%elem_of_nil].
  by intros (r0 & -> & _)%list_elem_of_fmap.
Qed.

Lemma filter_fetched_same w meter :
  filter (λ r, Reading.meter_id r = Some (Meter.entity_id meter))
         (fetched hass w meter)
  = fetched hass w meter.
Proof.
  pose proof (fetched_meter_id w meter) as H.
  induction (fetched hass w meter) as [|r l IH]; [done|].
  rewrite filter_cons_True by (apply H; left).
  f_equal. apply IH. intros r' Hr'. apply H. by right.
Qed.

Lemma filter_fetched_other w meter e :
  Meter.entity_id meter ≠ e →
  filter (λ r, Reading.meter_id r = Some e) (fetched hass w meter) = [].
Proof.
  intros Hne. pose proof (fetched_meter_id w meter) as H.
  induction (fetched hass w meter) as [|r l IH]; [done|].
  rewrite filter_cons_False.
  - apply IH. intros r' Hr'. apply H. by right.
  - rewrite (H r) by left. congruence.
Qed.

Lemma filter_bind_fetched w meters m :
  NoDup (Meter.entity_id <$> meters) → m ∈ meters →
  filter (λ r, Reading.meter_id r = Some (Meter.entity_id m))
         (meters ≫= fetched hass w)
  = fetched hass w m.
Proof.
  induction meters as [|m' meters IH]; intros Hnd Hm.
  { by apply elem_of_nil in Hm. }
  rewrite fmap_cons in Hnd. apply NoDup_cons in Hnd as [Hfresh Hnd].
  rewrite bind_cons, filter_app.
  apply elem_of_cons in Hm as [->|Hm].
  - rewrite filter_fetched_same.
    assert (filter (λ r, Reading.meter_id r = Some (Meter.entity_id m'))
                   (meters ≫= fetched hass w) = []) as ->; [|by rewrite app_nil_r].
    clear IH Hnd. induction meters as [|m2 meters IH]; [done|].
    rewrite bind_cons, filter_app.
    rewrite fmap_cons in Hfresh. apply not_elem_of_cons in Hfresh as [Hne Hfresh].
    rewrite filter_fetched_other by done. by rewrite IH.
  - rewrite filter_fetched_other, IH; [done..|].
    intros Heq. apply Hfresh. rewrite Heq. by apply list_elem_of_fmap_2.
Qed.

(** C9.  Every reading in the list of [getReadings] was fetched by the
    [get_readings] call of one of the meters and carries that meter's
    entity id as its [meter_id]; so the readings whose [meter_id] is a
    given meter's entity id are exactly those fetched for that meter, in
    the order of the response.  Entity ids of meters are distinct, as the
    keys of the entity registry are. *)
Theorem getReadings_meter_id (w : W) (meters : list Meter.t)
    (readings : list Reading.t) :
  API.getMeters hass w = Ok meters →
  NoDup (Meter.entity_id <$> meters) →
  API.getReadings hass w = Ok readings →
  (∀ r, r ∈ readings →
     ∃ m result r0,
       m ∈ meters
       ∧ get_readings hass w (Meter.entity_id m) = Ok result
       ∧ r0 ∈ API.extract_readings result
       ∧ r = Reading.set_meter_id (Meter.entity_id m) r0
       ∧ Reading.meter_id r = Some (Meter.entity_id m))
  ∧ (∀ m, m ∈ meters →
       filter (λ r, Reading.meter_id r = Some (Meter.entity_id m)) readings
       = fetched hass w m).
Proof.
  intros Hm Hnd Hr. rewrite (getReadings_fetched _ _ Hm) in Hr.
  injection Hr as <-. split.
  - intros r (m & Hin & Hmem)%list_elem_of_bind.
    pose proof (fetched_meter_id _ _ _ Hin) as Hid.
    unfold fetched in Hin.
    destruct (get_readings hass w (Meter.entity_id m)) as [result|] eqn:Hres;
      [|by apply elem_of_nil in Hin].
    apply list_elem_of_fmap in Hin as (r0 & -> & Hr0).
    by exists m, result, r0.
  - intros m Hmem. by apply filter_bind_fetched.
Qed.

(** C5, as the code has it.  A failing [get_readings] call never aborts
    [getReadings]: once the meters are known, the result is the readings
    of every meter whose call succeeded, each under its meter's id, in
    the order of the meters; a meter whose call fails contributes nothing
    and leaves no trace in the result. *)
Theorem getReadings_skips_failed_meters (w : W) (meters : list Meter.t) :
  API.getMeters hass w = Ok meters →
  ∃ readings,
    API.getReadings hass w = Ok readings
    ∧ readings = meters ≫= fetched hass w
    ∧ (∀ m result r,
         m ∈ meters →
         get_readings hass w (Meter.entity_id m) = Ok result →
         r ∈ API.extract_readings result →
         Reading.set_meter_id (Meter.entity_id m) r ∈ readings)
    ∧ (∀ m e,
         m ∈ meters →
         get_readings hass w (Meter.entity_id m) = Throw e →
         fetched hass w m = []).
Proof.
  intros Hm. exists (meters ≫= fetched hass w).
  split; [by apply getReadings_fetched|]. split; [done|]. split.
  - intros m result r Hin Hres Hr. apply list_elem_of_bind.
    exists m. split; [|done]. unfold fetched. rewrite Hres.
    by apply list_elem_of_fmap_2.
  - intros m e _ Hres. unfold fetched. by rewrite Hres.
Qed.

End getReadings_facts.

Lemma getReadings_meter_id_witness :
  filter (λ r, Reading.meter_id r = Some Sample.meter_a)
         [Reading.set_meter_id Sample.meter_a (Sample.reading 1 1000 10%Q);
          Reading.set_meter_id Sample.meter_a (Sample.reading 2 2000 25%Q)]
  = [Reading.set_meter_id Sample.meter_a (Sample.reading 1 1000 10%Q);
     Reading.set_meter_id Sample.meter_a (Sample.reading 2 2000 25%Q)].
Proof.
  pose (h := Sample.fixed_hass Sample.answers_b_fails).
  assert (Hm : API.getMeters h () =
               Ok [API.meter_of_entity (Sample.entity Sample.meter_a);
                   API.meter_of_entity (Sample.entity Sample.meter_b)])
    by (vm_compute; reflexivity).
  assert (Hnd : NoDup (Meter.entity_id <$>
                  [API.meter_of_entity (Sample.entity Sample.meter_a);
                   API.meter_of_entity (Sample.entity Sample.meter_b)])).
  { simpl. apply NoDup_cons. split; [|apply NoDup_singleton].
    intros H%list_elem_of_singleton. discriminate H. }
  assert (Hr : API.getReadings h () =
               Ok [Reading.set_meter_id Sample.meter_a (Sample.reading 1 1000 10%Q);
                   Reading.set_meter_id Sample.meter_a (Sample.reading 2 2000 25%Q)])
    by (vm_compute; reflexivity).
  destruct (getReadings_meter_id h () _ _ Hm Hnd Hr) as [_ Hfilter].
  apply (Hfilter (API.meter_of_entity (Sample.entity Sample.meter_a))).
  left.
Defined.

Lemma getReadings_skips_failed_meters_witness :
  ∃ readings,
    API.getReadings (Sample.fixed_hass Sample.answers_b_fails) () = Ok readings
    ∧ length readings = 2%nat.
Proof.
  pose (h := Sample.fixed_hass Sample.answers_b_fails).
  assert (Hm : API.getMeters h () =
               Ok [API.meter_of_entity (Sample.entity Sample.meter_a);
                   API.meter_of_entity (Sample.entity Sample.meter_b)])
    by (vm_compute; reflexivity).
  destruct (getReadings_skips_failed_meters h () _ Hm)
    as (readings & Hr & -> & _).
  eexists. split; [exact Hr|]. vm_compute. reflexivity.
Defined.

(** C5, as stated, fails: the caller gets no outcome per meter.  Whether
    the call for [meter_b] throws or succeeds with no readings, the
    caller receives the same list. *)
Lemma getReadings_hides_failure :
  get_readings (Sample.fixed_hass Sample.answers_b_fails) () Sample.meter_b
    = Throw (mkError "service unavailable")
  ∧ get_readings (Sample.fixed_hass Sample.answers_b_empty) () Sample.meter_b
    = Ok (in_response_readings [])
  ∧ API.getReadings (Sample.fixed_hass Sample.answers_b_fails) ()
    = API.getReadings (Sample.fixed_hass Sample.answers_b_empty) ().
Proof. vm_compute. done. Qed.

(** ** [ha-metermate-panel.js]: the readings shown *)

Lemma gt_zero_date_sub (t1 t2 : Z) :
  gt_zero (date_sub (Some t1) (Some t2)) = bool_decide (t2 < t1).
Proof.
  unfold date_sub, gt_zero, Qle_bool, inject_Z. simpl.
  rewrite Z.mul_1_r. case_bool_decide as Hlt.
  - apply negb_true_iff, Z.leb_gt. lia.
  - apply negb_false_iff, Z.leb_le. lia.
Qed.

Lemma not_older_transitive (a b c : Reading.t) :
  not_older a b → not_older b c → not_older a c.
Proof.
  unfold not_older.
  destruct (Reading.timestamp a), (Reading.timestamp b), (Reading.timestamp c);
    try done; lia.
Qed.

Lemma getFilteredReadings_selected (p : Panel.t) (selected : string) :
  Panel._selectedMeter p = Some selected → selected ≠ EmptyString →
  Panel._getFilteredReadings p
  = JS.sort (λ a b, date_sub (Reading.timestamp b) (Reading.timestamp a))
            (filter (λ reading, Reading.meter_id reading = Some selected)
                    (Panel._readings p)).
Proof.
  intros Hsel Hne. unfold Panel._getFilteredReadings. rewrite Hsel.
  by destruct (decide (selected = EmptyString)).
Qed.

(** C2, as the code has it.  The list the panel shows for the selected
    meter holds that meter's readings newest first: it is a rearrangement
    of the readings of [_readings] whose [meter_id] is the selected meter,
    ordered by timestamp descending, provided each of them carries a
    timestamp. *)
Theorem filtered_readings_newest_first (p : Panel.t) :
  (∀ r, r ∈ Panel._readings p →
        Reading.meter_id r = Panel._selectedMeter p →
        is_Some (Reading.timestamp r)) →
  StronglySorted not_older (Panel._getFilteredReadings p)
  ∧ (∀ selected,
       Panel._selectedMeter p = Some selected → selected ≠ EmptyString →
       Panel._getFilteredReadings p
       ≡ₚ filter (λ r, Reading.meter_id r = Some selected) (Panel._readings p)).
Proof.
  intros Hts. split.
  - destruct (Panel._selectedMeter p) as [selected|] eqn:Hsel;
      [|unfold Panel._getFilteredReadings; rewrite Hsel; constructor].
    destruct (decide (selected = EmptyString)) as [->|Hne].
    { unfold Panel._getFilteredReadings. rewrite Hsel. simpl. constructor. }
    rewrite (getFilteredReadings_selected p selected) by done.
    apply Sorted_StronglySorted.
    { intros a b c. apply not_older_transitive. }
    apply (insertion_sort_Sorted _ (λ r, is_Some (Reading.timestamp r))).
    + intros x y [tx Hx] [ty Hy]. unfold not_older. rewrite Hx, Hy.
      rewrite gt_zero_date_sub. intros ?%bool_decide_eq_false. lia.
    + intros x y [tx Hx] [ty Hy]. unfold not_older. rewrite Hx, Hy.
      rewrite gt_zero_date_sub. intros ?%bool_decide_eq_true. lia.
    + apply Forall_forall. intros r [Hid Hr]%list_elem_of_filter.
      by apply Hts.
  - intros selected Hsel Hne.
    rewrite (getFilteredReadings_selected p selected) by done.
    apply insertion_sort_Permutation.
Qed.

Lemma filtered_readings_newest_first_witness :
  StronglySorted not_older
    (Panel._getFilteredReadings
       (Panel.panel
          (Panel._loadData (Sample.fixed_hass Sample.answers_b_fails)
                           (Sample.start ())))).
Proof.
  apply filtered_readings_newest_first.
  intros r Hr _. vm_compute in Hr.
  apply elem_of_cons in Hr as [->|Hr]; [by eexists|].
  apply elem_of_cons in Hr as [->|Hr]; [by eexists|].
  by apply elem_of_nil in Hr.
Defined.

(** C2, as stated, fails.  The instance returns the two readings of
    [meter_a] oldest first; once loaded, the panel lists them newest
    first, which is not ascending in the anchor instant. *)
Lemma filtered_readings_not_ascending :
  let p := Panel.panel
             (Panel._loadData (Sample.fixed_hass Sample.answers_b_fails)
                              (Sample.start ())) in
  Panel._selectedMeter p = Some Sample.meter_a
  ∧ Reading.anchor <$> Panel._readings p = [1000; 2000]
  ∧ Reading.anchor <$> Panel._getFilteredReadings p = [2000; 1000]
  ∧ ¬ Sorted anchor_le (Panel._getFilteredReadings p).
Proof.
  split_and!; try (vm_compute; reflexivity).
  intros H. vm_compute in H.
  inversion H as [|? ? _ Hhd]. inversion Hhd as [|? ? Hle].
  vm_compute in Hle. by apply Hle.
Qed.

(** ** [ha-metermate-panel.js]: adding a reading *)

Lemma invalid_value_false (x : number) :
  Panel.invalid_value x = false
  ↔ x = Infinity false ∨ ∃ q, x = Finite q ∧ (0 < q)%Q.
Proof.
  unfold Panel.invalid_value. rewrite orb_false_iff, negb_false_iff. split.
  - destruct x as [|[]|q]; simpl; intros [Ht Hl]; try done; [by left|].
    right. exists q. split; [done|].
    apply negb_true_iff in Ht. apply negb_false_iff, Qle_bool_iff in Hl.
    apply Qle_lteq in Hl as [Hlt|Heq]; [done|].
    apply Qeq_sym, Qeq_bool_iff in Heq. congruence.
  - intros [->|(q & -> & Hq)]; [done|]. simpl. split.
    + apply negb_true_iff. destruct (Qeq_bool q 0) eqn:Heq; [|done].
      apply Qeq_bool_iff in Heq. rewrite Heq in Hq. by apply Qlt_irrefl in Hq.
    + apply negb_false_iff, Qle_bool_iff. by apply Qlt_le_weak.
Qed.

(** The value check on the kinds of number [parseFloat] can give: it
    turns down [NaN], zero and the negative numbers, and lets the positive
    numbers through, positive infinity among them. *)
Example invalid_value_samples :
  Panel.invalid_value NaN = true
  ∧ Panel.invalid_value (Finite 0) = true
  ∧ Panel.invalid_value (Finite (-3)) = true
  ∧ Panel.invalid_value (Infinity true) = true
  ∧ Panel.invalid_value (Finite (154325 # 10)) = false
  ∧ Panel.invalid_value (Infinity false) = false.
Proof. by vm_compute. Qed.

Lemma invalid_value_zero (q : Q) : (q == 0)%Q → Panel.invalid_value (Finite q) = true.
Proof.
  intros Hq. unfold Panel.invalid_value. simpl.
  apply Qeq_bool_iff in Hq. by rewrite Hq.
Qed.

Section handler_facts.
Import Panel.
Context {W : Type} (hass : Hass W).

Lemma loadData_sent (c : Ctx W) : sent (_loadData hass c) = sent c.
Proof.
  unfold _loadData. destruct (negb (_api (panel c))); [done|]. simpl.
  by destruct (API.getMeters hass (world c)), (API.getReadings hass (world c)).
Qed.

Lemma loadData_world (c : Ctx W) : world (_loadData hass c) = world c.
Proof.
  unfold _loadData. destruct (negb (_api (panel c))); [done|]. simpl.
  by destruct (API.getMeters hass (world c)), (API.getReadings hass (world c)).
Qed.

Lemma recorded_sent call run (c c' : Ctx W) r :
  recorded call run c = (r, c') → sent c' = sent c ++ [call].
Proof.
  unfold recorded. destruct (run (world c)). by intros [= _ <-].
Qed.

Lemma api_callService_Ok call (c c' : Ctx W) :
  api_callService hass call c = (Ok (), c') → sent c' = sent c ++ [call].
Proof.
  unfold api_callService. destruct (_api (panel c)); [|done].
  apply recorded_sent.
Qed.

Lemma api_callService_sent call (c c' : Ctx W) r :
  api_callService hass call c = (r, c') →
  sent c' = sent c ∨ sent c' = sent c ++ [call].
Proof.
  unfold api_callService. destruct (_api (panel c)).
  - intros ?%recorded_sent. by right.
  - intros [= _ <-]. by left.
Qed.

Lemma handleAddReading_selected (form : FormData) (c : Ctx W) selected :
  _selectedMeter (panel c) = Some selected → selected ≠ EmptyString →
  _handleAddReading hass form c
  = match _handleAddReading_try hass selected form c with
    | (Ok _, c') => c'
    | (Throw e, c') =>
        _showAlert error ("Failed to add reading: " ++ message_or_error e) c'
    end.
Proof.
  intros Hsel Hne. unfold _handleAddReading. rewrite Hsel.
  by destruct (decide (selected = EmptyString)).
Qed.

(** A value that fails the value check ends the handler with the alert of
    its branch, and nothing is sent. *)
Lemma handleAddReading_invalid_meter_reading (form : FormData) (c : Ctx W) selected :
  _selectedMeter (panel c) = Some selected → selected ≠ EmptyString →
  entryType form = Some "meter_reading" →
  invalid_value (meter_reading form) = true →
  _handleAddReading hass form c
  = _showAlert error "Please enter a valid meter reading" c.
Proof.
  intros Hsel Hne Hty Hinv. rewrite (handleAddReading_selected _ _ selected) by done.
  unfold _handleAddReading_try. rewrite Hty, Hinv.
  by destruct (decide _).
Qed.

Lemma handleAddReading_invalid_consumption (form : FormData) (c : Ctx W) selected :
  _selectedMeter (panel c) = Some selected → selected ≠ EmptyString →
  entryType form = Some "consumption" →
  invalid_value (consumption form) = true →
  _handleAddReading hass form c
  = _showAlert error "Please enter a valid consumption amount" c.
Proof.
  intros Hsel Hne Hty Hinv. rewrite (handleAddReading_selected _ _ selected) by done.
  unfold _handleAddReading_try. rewrite Hty, Hinv.
  destruct (decide _) as [[=]|_]. by destruct (decide _).
Qed.

(** C3 at the value zero.  In both branches of the add handler a value of
    zero fails the value check: the handler shows the alert of the branch
    and sends nothing. *)
Theorem handleAddReading_rejects_zero (form : FormData) (c : Ctx W)
    (selected : string) (q : Q) :
  _selectedMeter (panel c) = Some selected → selected ≠ EmptyString →
  (q == 0)%Q →
  (entryType form = Some "meter_reading" → meter_reading form = Finite q →
   _handleAddReading hass form c
   = _showAlert error "Please enter a valid meter reading" c
   ∧ sent (_handleAddReading hass form c) = sent c)
  ∧ (entryType form = Some "consumption" → consumption form = Finite q →
     _handleAddReading hass form c
     = _showAlert error "Please enter a valid consumption amount" c
     ∧ sent (_handleAddReading hass form c) = sent c).
Proof.
  intros Hsel Hne Hq. split.
  - intros Hty Hv.
    rewrite (handleAddReading_invalid_meter_reading _ _ selected); try done.
    rewrite Hv. by apply invalid_value_zero.
  - intros Hty Hv.
    rewrite (handleAddReading_invalid_consumption _ _ selected); try done.
    rewrite Hv. by apply invalid_value_zero.
Qed.

End handler_facts.

Lemma handleAddReading_rejects_zero_witness :
  Panel._handleAddReading (Sample.fixed_hass Sample.answers_b_empty)
    (Sample.meter_reading_form (Finite 0)) (Sample.selected ())
  = Panel._showAlert Panel.error "Please enter a valid meter reading"
      (Sample.selected ())
  ∧ Panel.sent
      (Panel._handleAddReading (Sample.fixed_hass Sample.answers_b_empty)
         (Sample.meter_reading_form (Finite 0)) (Sample.selected ()))
    = [].
Proof.
  refine (proj1 (handleAddReading_rejects_zero
                   (Sample.fixed_hass Sample.answers_b_empty)
                   (Sample.meter_reading_form (Finite 0)) (Sample.selected ())
                   Sample.meter_a 0%Q _ _ _) _ _);
    [reflexivity|discriminate|reflexivity|reflexivity|reflexivity].
Defined.


Section period_facts.
Import Panel.
Context {W : Type} (hass : Hass W).

Lemma period_ok_inj (form : FormData) (s e s' e' : Z) :
  period_ok form s e → period_ok form s' e' → s = s' ∧ e = e'.
Proof. intros (Hs & He & _) (Hs' & He' & _). split; congruence. Qed.

(** The consumption branch behind the value check, by the dates of the
    form. *)
Lemma handleAddReading_try_consumption (form : FormData) (c : Ctx W) selected :
  entryType form = Some "consumption" →
  invalid_value (consumption form) = false →
  _handleAddReading_try hass selected form c
  = match period_start form, period_end form with
    | blank, _ | _, blank =>
        (Ok (), _showAlert error
                  "Please specify both period start and end dates" c)
    | filled (Some s), filled (Some e) =>
        if bool_decide (e ≤ s)
        then (Ok (), _showAlert error "Period start must be before period end" c)
        else
          match api_callService hass
                  (add_consumption_period selected (consumption form) s e
                                          (notes form)) c with
          | (Throw err, c') => (Throw err, c')
          | (Ok _, c') =>
              (Ok (), _loadData hass
                        (_closeAddDialog
                           (_showAlert success
                              "Consumption period added successfully" c')))
          end
    | filled _, filled _ => (Throw (mkError "Invalid time value"), c)
    end.
Proof.
  intros Hty Hv. unfold _handleAddReading_try. rewrite Hty, Hv.
  destruct (decide _) as [[=]|_]. destruct (decide _) as [_|[]]; [|done].
  destruct (period_start form) as [|[s|]], (period_end form) as [|[e|]];
    simpl; done.
Qed.

(** C4.  A consumption entry leads to an [add_consumption_period] call
    only if both period dates are given and the start is strictly before
    the end.  Otherwise nothing is sent, Home Assistant is left as it is,
    and the handler ends with an error alert, which for a value that
    passed the value check is one of the alerts about the period. *)
Theorem handleAddReading_period_checked (form : FormData) (c : Ctx W)
    (selected : string) :
  _selectedMeter (panel c) = Some selected → selected ≠ EmptyString →
  entryType form = Some "consumption" →
  (sent (_handleAddReading hass form c) ≠ sent c →
     ∃ s e, period_ok form s e
            ∧ invalid_value (consumption form) = false
            ∧ sent (_handleAddReading hass form c)
              = sent c ++ [add_consumption_period selected (consumption form)
                                                  s e (notes form)])
  ∧ ((¬ ∃ s e, period_ok form s e) →
       sent (_handleAddReading hass form c) = sent c
       ∧ world (_handleAddReading hass form c) = world c
       ∧ ∃ msg, _alert (panel (_handleAddReading hass form c))
                = Some (mkAlert error msg)
                ∧ (invalid_value (consumption form) = false →
                   msg ∈ period_alerts))
  ∧ (∀ s e, period_ok form s e →
       invalid_value (consumption form) = false →
       _api (panel c) = true →
       sent (_handleAddReading hass form c)
       = sent c ++ [add_consumption_period selected (consumption form)
                                           s e (notes form)]).
Proof.
  intros Hsel Hne Hty.
  destruct (invalid_value (consumption form)) eqn:Hv.
  { rewrite (handleAddReading_invalid_consumption _ _ _ selected) by done.
    split_and!; [done| |done].
    intros _. split_and!; [done..|]. by eexists. }
  rewrite (handleAddReading_selected _ _ _ selected) by done.
  rewrite handleAddReading_try_consumption by done.
  unfold period_ok, period_alerts.
  destruct (period_start form) as [|[s|]], (period_end form) as [|[e|]];
    simpl.
  1-4,6-9:
    (split_and!;
     [done
     |intros _; split_and!; [done..|]; eexists; split; [done|];
      intros _; set_solver
     |intros ?? (? & ? & ?); done]).
  case_bool_decide as Hle; simpl.
  { split_and!; [done| |intros ?? ([= ->] & [= ->] & ?); lia].
    intros _. split_and!; [done..|]. eexists. split; [done|].
    intros _. set_solver. }
  destruct (api_callService hass _ c) as [[[]|err] c'] eqn:Hcall.
  - apply api_callService_Ok in Hcall. simpl.
    rewrite loadData_sent. simpl. split_and!.
    + intros _. exists s, e. split_and!; [done..|lia|done|done].
    + intros Hno. destruct Hno. exists s, e. split_and!; [done..|lia].
    + by intros ?? ([= <-] & [= <-] & _) _ _.
  - unfold api_callService in Hcall. simpl. split_and!.
    + intros Hsent. exists s, e. split_and!; [done..|lia|done|].
      destruct (_api (panel c)); [|by injection Hcall as _ <-].
      by apply recorded_sent in Hcall.
    + intros Hno. destruct Hno. exists s, e. split_and!; [done..|lia].
    + intros ?? ([= <-] & [= <-] & _) _ Hapi. rewrite Hapi in Hcall.
      by apply recorded_sent in Hcall.
Qed.

End period_facts.

Lemma handleAddReading_period_checked_witness :
  Panel.sent
    (Panel._handleAddReading (Sample.fixed_hass Sample.answers_b_empty)
       (Sample.consumption_form (Finite 210) (Panel.filled (Some 2000))
                                (Panel.filled (Some 1000)))
       (Sample.selected ()))
  = [].
Proof.
  refine (proj1 (proj1 (proj2 (handleAddReading_period_checked
                   (Sample.fixed_hass Sample.answers_b_empty)
                   (Sample.consumption_form (Finite 210) (Panel.filled (Some 2000))
                                            (Panel.filled (Some 1000)))
                   (Sample.selected ()) Sample.meter_a _ _ _)) _));
    [reflexivity|discriminate|reflexivity|].
  intros (s & e & Hs & He & Hlt). simpl in Hs, He.
  injection Hs as <-. injection He as <-. lia.
Defined.

(** ** The core: conversion engine *)

Lemma sort_by_anchor_sorted (rs : list Reading.t) :
  Sorted anchor_le rs → Core.sort_by_anchor rs = rs.
Proof.
  intros Hs. apply insertion_sort_fixed.
  induction Hs as [|r rs _ IH Hhd]; constructor; [done|].
  destruct Hhd as [|r' rs' Hle]; constructor.
  apply bool_decide_eq_false. unfold anchor_le in Hle. lia.
Qed.

Lemma sort_by_anchor_Permutation (rs : list Reading.t) :
  Core.sort_by_anchor rs ≡ₚ rs.
Proof. apply insertion_sort_Permutation. Qed.

Lemma accumulate_interval policy running r rs :
  Reading.kind r = Reading.interval →
  Core.accumulate policy running (r :: rs)
  = (Reading.anchor r, (running + Reading.value r)%Q)
      :: Core.accumulate policy (running + Reading.value r)%Q rs.
Proof.
  unfold Reading.kind. simpl.
  unfold Core.emit, Core.offends, Core.total_after, Core.offends.
  by destruct (Reading.when r).
Qed.

Lemma accumulate_intervals_length policy running rs :
  Forall (λ r, Reading.kind r = Reading.interval) rs →
  length (Core.accumulate policy running rs) = length rs.
Proof.
  intros Hk. revert running.
  induction Hk as [|r rs Hr _ IH]; intros running; [done|].
  rewrite accumulate_interval by done. simpl. by rewrite IH.
Qed.

Lemma accumulate_intervals_lookup policy running rs i r :
  Forall (λ r, Reading.kind r = Reading.interval) rs →
  rs !! i = Some r →
  Core.accumulate policy running rs !! i
  = Some (Reading.anchor r,
          (previous_total running (Core.accumulate policy running rs) i
           + Reading.value r)%Q).
Proof.
  intros Hk. revert running i.
  induction Hk as [|r0 rs Hr0 Hk IH]; intros running i Hi; [done|].
  rewrite accumulate_interval by done.
  destruct i as [|j]; simpl in *.
  { by injection Hi as ->. }
  rewrite (IH _ _ Hi). do 3 f_equal.
  destruct j as [|k]; simpl; [done|].
  assert (is_Some (Core.accumulate policy (running + Reading.value r0)%Q rs !! k))
    as [p Hp]; [|unfold Core.StatPoint in *; by rewrite Hp].
  apply lookup_lt_is_Some. rewrite accumulate_intervals_length by done.
  apply lookup_lt_Some in Hi. simpl in Hi. lia.
Qed.

(** Scenario A: a point reading is taken as it is, whatever the offset. *)
Example convert_scenario_A (policy : Core.Policy) (T1 : Z) :
  Core.convert policy 15432%Q
    [Reading.mk 1 None 15650%Q (Reading.at_instant T1) None 0]
  = [(T1, 15650%Q)].
Proof. by destruct policy. Qed.

(** Scenario B: one interval from offset 0. *)
Example convert_scenario_B (policy : Core.Policy) (s e : Z) :
  Core.convert policy 0%Q
    [Reading.mk 1 None 210%Q (Reading.over_period s e) None 0]
  = [(e, 210%Q)].
Proof. by destruct policy. Qed.

(** A point below the running total: dropped under [reject], held at the
    running total under [clamp]; an interval after it goes on from the
    running total. *)
Example convert_non_increasing :
  let rs := [Sample.reading 1 1000 500%Q; Sample.reading 2 2000 400%Q;
             Sample.interval 3 2000 3000 50%Q] in
  Core.convert Core.reject 0%Q rs = [(1000, 500%Q); (3000, 550%Q)]
  ∧ Core.convert Core.clamp 0%Q rs
    = [(1000, 500%Q); (2000, 500%Q); (3000, 550%Q)]
  ∧ Reading.id <$> Core.offending 0%Q rs = [2%nat].
Proof. by vm_compute. Qed.

(** C1.  On readings of one meter that are all intervals, in the order of
    their anchor instants, the engine gives one point per reading: the
    point of a reading is at its [period_end] and its total is the running
    total before it (the initial offset for the first reading, the total
    of the point before for the others) plus the reading's value.  So
    from offset 0, two intervals of 100 and 50 give the totals 100 and
    150 at their period ends. *)
Theorem convert_interval_readings (policy : Core.Policy) (initial_offset : Q)
    (rs : list Reading.t) :
  Sorted anchor_le rs →
  Forall (λ r, Reading.kind r = Reading.interval) rs →
  length (Core.convert policy initial_offset rs) = length rs
  ∧ (∀ i r, rs !! i = Some r →
       ∃ period_end,
         Reading.period_end r = Some period_end
         ∧ Core.convert policy initial_offset rs !! i
           = Some (period_end,
                   (previous_total initial_offset
                      (Core.convert policy initial_offset rs) i
                    + Reading.value r)%Q))
  ∧ (∀ r1 r2 T1 T2,
       rs = [r1; r2] → initial_offset = 0%Q →
       Reading.value r1 = 100%Q → Reading.value r2 = 50%Q →
       Reading.period_end r1 = Some T1 → Reading.period_end r2 = Some T2 →
       T1 < T2 →
       Core.convert policy initial_offset rs = [(T1, 100%Q); (T2, 150%Q)]).
Proof.
  intros Hs Hk. unfold Core.convert. rewrite sort_by_anchor_sorted by done.
  split_and!.
  - by apply accumulate_intervals_length.
  - intros i r Hi.
    assert (Reading.kind r = Reading.interval) as Hr.
    { rewrite Forall_forall in Hk. apply Hk. by eapply list_elem_of_lookup_2. }
    exists (Reading.anchor r). split.
    + unfold Reading.kind, Reading.period_end, Reading.anchor in *.
      by destruct (Reading.when r).
    + by apply accumulate_intervals_lookup.
  - intros r1 r2 T1 T2 -> -> Hv1 Hv2 He1 He2 _.
    apply Forall_cons in Hk as [Hk1 Hk2]. apply Forall_cons in Hk2 as [Hk2 _].
    assert (Reading.anchor r1 = T1) as Ha1.
    { unfold Reading.period_end, Reading.anchor in *.
      destruct (Reading.when r1); congruence. }
    assert (Reading.anchor r2 = T2) as Ha2.
    { unfold Reading.period_end, Reading.anchor in *.
      destruct (Reading.when r2); congruence. }
    rewrite !accumulate_interval by done. simpl.
    by rewrite Hv1, Hv2, Ha1, Ha2.
Qed.

Lemma convert_interval_readings_witness :
  Core.convert Core.reject 0%Q
    [Sample.interval 1 0 1000 100%Q; Sample.interval 2 1000 2000 50%Q]
  = [(1000, 100%Q); (2000, 150%Q)].
Proof.
  refine (proj2 (proj2 (convert_interval_readings Core.reject 0%Q
            [Sample.interval 1 0 1000 100%Q; Sample.interval 2 1000 2000 50%Q]
            _ _)) _ _ 1000 2000 _ _ _ _ _ _ _);
    try reflexivity.
  - repeat constructor. by vm_compute.
  - repeat constructor.
Defined.

(** ** The core: validation and store *)

Lemma check_value_inr (v : number) (q : Q) :
  Core.check_value v = inr q → v = Finite q ∧ (0 <= q)%Q.
Proof.
  destruct v as [| |q']; simpl; try done.
  destruct (Qle_bool 0 q') eqn:Hle; [|done].
  intros [= <-]. split; [done|]. by apply Qle_bool_iff.
Qed.

Lemma check_when_anchor (now : Z) (input : Core.ReadingInput) (w : Reading.When) :
  Core.check_when now input = inr w →
  input_anchor now input = Some (Core.anchor_of w).
Proof.
  unfold Core.check_when, input_anchor.
  destruct (Core.kind input).
  - by intros [= <-].
  - destruct (Core.period_start input) as [s|]; [|done].
    destruct (Core.period_end input) as [e|]; [|done].
    case_bool_decide; [|done]. by intros [= <-].
Qed.

Lemma check_unique_duplicate (existing : list Reading.t) (w : Reading.When)
    (r : Reading.t) :
  r ∈ existing → Core.anchor_of w = Reading.anchor r →
  Core.check_unique existing w = inl Core.DuplicateAnchor.
Proof.
  intros Hr Ha. unfold Core.check_unique.
  case_decide as Hin; [done|]. destruct Hin.
  rewrite Ha. by apply list_elem_of_fmap_2.
Qed.

Lemma validate_inl_or_duplicate (now : Z) (existing : list Reading.t)
    (input : Core.ReadingInput) (r : Reading.t) :
  r ∈ existing →
  input_anchor now input = Some (Reading.anchor r) →
  ∃ e, Core.validate now existing input = inl e
       ∧ ((∃ q w, Core.check_value (Core.value input) = inr q
                  ∧ Core.check_when now input = inr w) →
          e = Core.DuplicateAnchor).
Proof.
  intros Hr Ha. unfold Core.validate.
  destruct (Core.check_value (Core.value input)) as [e|q].
  { exists e. split; [done|]. by intros (? & ? & ? & _). }
  destruct (Core.check_when now input) as [e|w] eqn:Hw.
  { exists e. split; [done|]. by intros (? & ? & _ & ?). }
  rewrite (check_unique_duplicate existing w r); [by eexists| done|].
  apply check_when_anchor in Hw. congruence.
Qed.

Section core_facts.
Context (policy : Core.Policy).

(** C8.  A candidate whose anchor instant is that of a reading already
    stored for the meter is never added: [addReading] returns a rejection
    and leaves the state, and with it the stored reading, as it was.  For
    a candidate that passes the checks on its value and its instants, the
    rejection is [DuplicateAnchor]. *)
Theorem addReading_duplicate_anchor (meter_id : string)
    (input : Core.ReadingInput) (now : Z) (st : Core.State) (r : Reading.t) :
  r ∈ Core.store_list meter_id st →
  input_anchor now input = Some (Reading.anchor r) →
  ∃ e, Core.addReading policy meter_id input now st = (inl e, st)
       ∧ r ∈ Core.store_list meter_id
               (snd (Core.addReading policy meter_id input now st))
       ∧ ((∃ q w, Core.check_value (Core.value input) = inr q
                  ∧ Core.check_when now input = inr w) →
          e = Core.DuplicateAnchor).
Proof.
  intros Hr Ha.
  destruct (validate_inl_or_duplicate now _ input r Hr Ha) as (e & Hv & He).
  exists e. unfold Core.addReading. rewrite Hv. by split_and!.
Qed.

End core_facts.

Lemma addReading_duplicate_anchor_witness :
  Core.addReading Core.reject Sample.meter_a
    (Core.mkInput Reading.interval (Finite 210) None (Some 0) (Some 1000) None)
    5000 Sample.core_state
  = (inl Core.DuplicateAnchor, Sample.core_state).
Proof.
  destruct (addReading_duplicate_anchor Core.reject Sample.meter_a
              (Core.mkInput Reading.interval (Finite 210) None (Some 0)
                            (Some 1000) None)
              5000 Sample.core_state
              (Reading.mk 0 (Some Sample.meter_a) 15650 (Reading.at_instant 1000)
                          None 900))
    as (e & Hadd & _ & He).
  - vm_compute. left.
  - reflexivity.
  - rewrite Hadd, He; [reflexivity|].
    exists 210%Q, (Reading.over_period 0 1000). split; reflexivity.
Defined.

(** ** The core: history rebuilder *)

Section rebuild_facts.
Context (policy : Core.Policy).

(** A rebuild reads the store and the meter configuration and leaves
    both as they are. *)
Lemma rebuild_store meter_id meter_id' (st : Core.State) :
  Core.store_list meter_id' (snd (Core.rebuild policy meter_id st))
  = Core.store_list meter_id' st
  ∧ Core.series policy meter_id' (snd (Core.rebuild policy meter_id st))
    = Core.series policy meter_id' st.
Proof. done. Qed.

Lemma rebuild_published meter_id (st : Core.State) :
  Core.published (snd (Core.rebuild policy meter_id st)) !! meter_id
  = Some (Core.series policy meter_id st).
Proof. simpl. apply lookup_insert_eq. Qed.

(** A rebuild right after a rebuild reports the same result and leaves
    the state as the first one left it. *)
Lemma rebuild_idempotent meter_id (st : Core.State) :
  Core.rebuild policy meter_id (snd (Core.rebuild policy meter_id st))
  = (fst (Core.rebuild policy meter_id st),
     snd (Core.rebuild policy meter_id st)).
Proof.
  unfold Core.rebuild. simpl. f_equal.
  unfold Core.replaceSeries, Core.ensureMetadata. simpl. f_equal.
  - by rewrite (assoc_L (∪)), (idemp_L (∪)).
  - by rewrite insert_insert_eq.
Qed.

Import Panel.

Lemma loadData_selected {W : Type} (hass : Hass W) (c : Ctx W) selected :
  _selectedMeter (panel c) = Some selected → selected ≠ EmptyString →
  _selectedMeter (panel (_loadData hass c)) = Some selected.
Proof.
  intros Hsel Hne. unfold _loadData.
  destruct (negb (_api (panel c))); [done|]. simpl.
  destruct (API.getMeters hass (world c)), (API.getReadings hass (world c));
    simpl; try done.
  rewrite Hsel. simpl. rewrite (bool_decide_true (selected ≠ EmptyString)) by done.
  by rewrite andb_false_r.
Qed.

Lemma rebuildHistory_confirmed (c : Ctx Core.World) selected :
  _selectedMeter (panel c) = Some selected → selected ≠ EmptyString →
  let c' := _rebuildHistory (Core.hass policy) true c in
  sent c' = sent c ++ [rebuild_history selected]
  ∧ world c'
    = Core.set_core (snd (Core.rebuild policy selected (Core.core (world c))))
                    (world c)
  ∧ _selectedMeter (panel c') = Some selected.
Proof.
  intros Hsel Hne. unfold _rebuildHistory. rewrite Hsel.
  destruct (decide (selected = EmptyString)); [done|]. simpl.
  rewrite loadData_sent, loadData_world. split_and!; [done..|].
  by apply loadData_selected.
Qed.

(** C6.  Rebuilding the history of the selected meter twice in a row
    sends two [rebuild_history] calls; each publishes the complete series
    derived from the readings in the store, so the series published by
    the second is that published by the first, and the second leaves the
    Home Assistant instance exactly as the first left it. *)
Theorem rebuildHistory_twice (c : Ctx Core.World) (selected : string) :
  _selectedMeter (panel c) = Some selected → selected ≠ EmptyString →
  let c1 := _rebuildHistory (Core.hass policy) true c in
  let c2 := _rebuildHistory (Core.hass policy) true c1 in
  sent c2 = sent c ++ [rebuild_history selected; rebuild_history selected]
  ∧ Core.published (Core.core (world c1)) !! selected
    = Some (Core.series policy selected (Core.core (world c)))
  ∧ Core.published (Core.core (world c2)) !! selected
    = Core.published (Core.core (world c1)) !! selected
  ∧ Core.rebuild policy selected (Core.core (world c1))
    = (fst (Core.rebuild policy selected (Core.core (world c))),
       Core.core (world c1))
  ∧ world c2 = world c1.
Proof.
  intros Hsel Hne c1 c2.
  destruct (rebuildHistory_confirmed c selected Hsel Hne)
    as (Hsent1 & Hworld1 & Hsel1).
  destruct (rebuildHistory_confirmed c1 selected Hsel1 Hne)
    as (Hsent2 & Hworld2 & _).
  fold c1 in Hsent1, Hworld1, Hsent2, Hworld2. fold c2 in Hsent2, Hworld2.
  assert (Core.rebuild policy selected (Core.core (world c1))
          = (fst (Core.rebuild policy selected (Core.core (world c))),
             Core.core (world c1))) as Hidem.
  { rewrite Hworld1. simpl. apply rebuild_idempotent. }
  assert (world c2 = world c1) as Hw.
  { rewrite Hworld2, Hidem. simpl. by destruct (world c1). }
  split_and!; [|..|done|done].
  - rewrite Hsent2, Hsent1. by rewrite <-app_assoc.
  - rewrite Hworld1. apply rebuild_published.
  - by rewrite Hw.
Qed.

End rebuild_facts.

Lemma rebuildHistory_twice_witness :
  Core.published
    (Core.core
       (Panel.world
          (Panel._rebuildHistory (Core.hass Core.clamp) true
             (Panel._rebuildHistory (Core.hass Core.clamp) true
                (Sample.selected Sample.core_world)))))
    !! Sample.meter_a
  = Some [(1000, 15650%Q)].
Proof.
  destruct (rebuildHistory_twice Core.clamp (Sample.selected Sample.core_world)
              Sample.meter_a)
    as (_ & H1 & H2 & _); [reflexivity|discriminate|].
  etrans; [exact H2|]. etrans; [exact H1|]. vm_compute. reflexivity.
Defined.

(** ** Round trip through the services *)

Section roundtrip_facts.
Context (policy : Core.Policy).

Lemma store_add_list meter_id q w notes now (st : Core.State) :
  Core.store_list meter_id (snd (Core.store_add meter_id q w notes now st))
  = Core.store_list meter_id st
      ++ [fst (Core.store_add meter_id q w notes now st)].
Proof. unfold Core.store_list at 1. simpl. by rewrite lookup_insert_eq. Qed.

Lemma addReading_accepted meter_id input now (st st' : Core.State) r :
  Core.addReading policy meter_id input now st = (inr r, st') →
  ∃ q w,
    Core.validate now (Core.store_list meter_id st) input = inr (q, w)
    ∧ r = Reading.mk (Core.next_id st) (Some meter_id) q w (Core.notes input) now
    ∧ r ∈ Core.store_list meter_id st'.
Proof.
  unfold Core.addReading.
  destruct (Core.validate now (Core.store_list meter_id st) input)
    as [e|[q w]] eqn:Hv; [done|].
  destruct (Core.store_add meter_id q w (Core.notes input) now st)
    as [r' st1] eqn:Hadd.
  intros [= <- <-]. exists q, w. split; [done|].
  pose proof (store_add_list meter_id q w (Core.notes input) now st) as Hl.
  rewrite Hadd in Hl. simpl in Hl. split.
  - unfold Core.store_add in Hadd. by injection Hadd as <- _.
  - change (r' ∈ Core.store_list meter_id st1).
    rewrite Hl. apply elem_of_app. right. left.
Qed.

Lemma validate_point now existing v ts notes q w :
  Core.validate now existing (Core.mkInput Reading.point v ts None None notes)
  = inr (q, w) →
  v = Finite q ∧ w = Reading.at_instant (default now ts).
Proof.
  unfold Core.validate. simpl.
  destruct (Core.check_value v) as [|q'] eqn:Hq; [done|].
  unfold Core.check_when. simpl.
  destruct (Core.check_unique _ _); [done|].
  intros [= <- <-]. by apply check_value_inr in Hq as [-> _].
Qed.

Lemma getReadings_stored meter_id (st : Core.State) r :
  r ∈ Core.store_list meter_id st →
  r ∈ Core.getReadings meter_id None None st.
Proof.
  intros Hr. unfold Core.getReadings. apply list_elem_of_filter.
  split; [done|]. by rewrite sort_by_anchor_Permutation.
Qed.

Lemma set_meter_id_same e (r : Reading.t) :
  Reading.meter_id r = Some e → Reading.set_meter_id e r = r.
Proof. destruct r. simpl. by intros ->. Qed.

(** C7.  When the [add_reading] call of [addReading] is accepted, the
    core holds a reading with the value, the timestamp (the current time
    if none was given) and the notes (none if they were empty) of the
    call, under the meter's id; [getMeterReadings] for the meter returns
    it, and so does [getReadings] whenever the meter is among the meters
    of [getMeters]. *)
Theorem addReading_getReadings_roundtrip (w w' : Core.World)
    (entityId : string) (value : number) (timestamp : option Z)
    (notes : string) :
  API.addReading (Core.hass policy) entityId value timestamp notes w
  = (Ok (), w') →
  ∃ r,
    value = Finite (Reading.value r)
    ∧ Reading.timestamp r = Some (default (Core.now w) timestamp)
    ∧ Reading.notes r = or_undefined notes
    ∧ Reading.meter_id r = Some entityId
    ∧ (∃ readings,
         API.getMeterReadings (Core.hass policy) entityId w' = Ok readings
         ∧ r ∈ readings)
    ∧ (∀ meters,
         API.getMeters (Core.hass policy) w' = Ok meters →
         entityId ∈ Meter.entity_id <$> meters →
         ∃ readings,
           API.getReadings (Core.hass policy) w' = Ok readings
           ∧ r ∈ readings).
Proof.
  unfold API.addReading. simpl. unfold Core.respond.
  destruct (Core.addReading policy entityId _ (Core.now w) (Core.core w))
    as [[e|r] st'] eqn:Hadd; [done|].
  intros [= <-].
  apply addReading_accepted in Hadd as (q & wh & Hv & Hr & Hin).
  apply validate_point in Hv as [-> ->].
  exists r. subst r. simpl in *. split_and!; try done.
  - eexists. split; [done|]. simpl. by apply getReadings_stored.
  - intros meters Hm (m & Hid & Hmem)%list_elem_of_fmap.
    eexists. split; [by apply getReadings_fetched|].
    apply list_elem_of_bind. exists m. split; [|done].
    unfold fetched. simpl. rewrite <-Hid.
    apply list_elem_of_fmap. eexists. split; [|by apply getReadings_stored].
    by rewrite set_meter_id_same.
Qed.

End roundtrip_facts.

Lemma addReading_getReadings_roundtrip_witness :
  ∃ r, Reading.value r = 15700%Q
       ∧ Reading.timestamp r = Some 2000
       ∧ Reading.notes r = Some "June"
       ∧ ∃ readings,
           API.getReadings (Core.hass Core.reject)
             (snd (API.addReading (Core.hass Core.reject) Sample.meter_a
                     (Finite 15700) (Some 2000) "June" Sample.core_world))
           = Ok readings
           ∧ r ∈ readings.
Proof.
  destruct (addReading_getReadings_roundtrip Core.reject Sample.core_world
              (snd (API.addReading (Core.hass Core.reject) Sample.meter_a
                      (Finite 15700) (Some 2000) "June" Sample.core_world))
              Sample.meter_a (Finite 15700) (Some 2000) "June")
    as (r & Hv & Hts & Hn & _ & _ & Hall).
  - vm_compute. reflexivity.
  - exists r. split; [congruence|]. split; [exact Hts|]. split; [exact Hn|].
    apply (Hall [API.meter_of_entity (Sample.entity Sample.meter_a);
                 API.meter_of_entity (Sample.entity Sample.meter_b)]).
    + vm_compute. reflexivity.
    + left.
Defined.

(** ** [api.js]: further facts on the meters and their readings *)

Section api_more.
Context {W : Type} (hass : Hass W).

Lemma getMeters_throws (w : W) (e : Error) :
  API.getMeters hass w = Throw e ↔ entity_registry_list hass w = Throw e.
Proof.
  unfold API.getMeters.
  destruct (entity_registry_list hass w) as [registry|e'];
    [case_decide|]; split; congruence.
Qed.

Lemma getReadings_throws (w : W) (e : Error) :
  API.getReadings hass w = Throw e ↔ entity_registry_list hass w = Throw e.
Proof.
  rewrite <-getMeters_throws. unfold API.getReadings.
  destruct (API.getMeters hass w); split; congruence.
Qed.

(** X1.  [getMeters] and [getReadings] fail exactly when the entity
    registry cannot be read, and then with the registry's error; a failing
    [get_readings] call never makes [getReadings] fail. *)
Theorem getReadings_fails_with_registry_only (w : W) (e : Error) :
  (API.getMeters hass w = Throw e ↔ entity_registry_list hass w = Throw e)
  ∧ (API.getReadings hass w = Throw e ↔ entity_registry_list hass w = Throw e).
Proof. split; [apply getMeters_throws|apply getReadings_throws]. Qed.

(** X2.  The meters of [getMeters] are exactly the meter objects of the
    entities that the registry lists under the platform [metermate], that
    have a state, and whose state carries an entity id starting with
    [sensor.]; a registry entry without a state gives no meter. *)
Theorem getMeters_elem_of (w : W) (registry : list RegistryEntry.t)
    (meters : list Meter.t) (m : Meter.t) :
  entity_registry_list hass w = Ok registry →
  API.getMeters hass w = Ok meters →
  m ∈ meters
  ↔ ∃ entry entity,
      entry ∈ registry
      ∧ RegistryEntry.platform entry = "metermate"
      ∧ states hass w !! RegistryEntry.entity_id entry = Some entity
      ∧ startsWith (Entity.entity_id entity) "sensor." = true
      ∧ m = API.meter_of_entity entity.
Proof.
  intros Hreg Hget. unfold API.getMeters in Hget. rewrite Hreg in Hget.
  case_decide as Hlen; simplify_eq.
  - split; [by intros ?%elem_of_nil|].
    intros (entry & entity & Hentry & Hplatform & _).
    apply nil_length_inv, fmap_nil_inv in Hlen.
    assert (entry ∈ filter (λ entity, RegistryEntry.platform entity = "metermate")
                           registry) as Hin by by apply list_elem_of_filter.
    rewrite Hlen in Hin. by apply elem_of_nil in Hin.
  - rewrite list_elem_of_fmap. split.
    + intros (entity & -> & Hentity).
      apply list_elem_of_filter in Hentity as [Hsensor Hentity].
      apply list_elem_of_omap in Hentity as (k & Hk & Hlookup).
      apply list_elem_of_fmap in Hk as (entry & -> & Hentry).
      apply list_elem_of_filter in Hentry as [Hplatform Hentry].
      by exists entry, entity.
    + intros (entry & entity & Hentry & Hplatform & Hlookup & Hsensor & ->).
      exists entity. split; [done|].
      apply list_elem_of_filter. split; [done|].
      apply list_elem_of_omap. exists (RegistryEntry.entity_id entry).
      split; [|done]. apply list_elem_of_fmap_2.
      by apply list_elem_of_filter.
Qed.

Lemma fmap_filter_sublist {A B : Type} (f : A → B) (P : A → Prop)
    `{!∀ x, Decision (P x)} (l : list A) :
  f <$> filter P l `sublist_of` f <$> l.
Proof.
  induction l as [|x l IH]; [done|]. rewrite filter_cons, !fmap_cons.
  destruct (decide (P x)); [by apply sublist_skip|by apply sublist_cons].
Qed.

Lemma entity_ids_sublist (sts : gmap string Entity.t) (P : Entity.t → Prop)
    `{!∀ x, Decision (P x)} (ids : list string) :
  (∀ k entity, sts !! k = Some entity → Entity.entity_id entity = k) →
  Entity.entity_id <$> filter P (omap (λ id, sts !! id) ids) `sublist_of` ids.
Proof.
  intros Hkeys. induction ids as [|id ids IH]; [done|]. simpl.
  destruct (sts !! id) as [entity|] eqn:Hl; [|by apply sublist_cons].
  rewrite filter_cons. destruct (decide (P entity)); [|by apply sublist_cons].
  rewrite fmap_cons, (Hkeys _ _ Hl). by apply sublist_skip.
Qed.

(** X3.  With states keyed by their entity id, the entity ids of the
    meters of [getMeters] come in the order of the registry, each at most
    as often as the registry lists it; so a registry without repeated ids
    gives meters with distinct ids. *)
Theorem getMeters_ids_sublist (w : W) (registry : list RegistryEntry.t)
    (meters : list Meter.t) :
  (∀ k entity, states hass w !! k = Some entity → Entity.entity_id entity = k) →
  entity_registry_list hass w = Ok registry →
  API.getMeters hass w = Ok meters →
  Meter.entity_id <$> meters `sublist_of` RegistryEntry.entity_id <$> registry
  ∧ (NoDup (RegistryEntry.entity_id <$> registry) →
     NoDup (Meter.entity_id <$> meters)).
Proof.
  intros Hkeys Hreg Hget.
  assert (Meter.entity_id <$> meters
          `sublist_of` RegistryEntry.entity_id <$> registry) as Hsub.
  { unfold API.getMeters in Hget. rewrite Hreg in Hget.
    case_decide; simplify_eq; [apply sublist_nil_l|].
    rewrite <-list_fmap_compose.
    etrans;
      [|apply (fmap_filter_sublist RegistryEntry.entity_id
                 (λ entity, RegistryEntry.platform entity = "metermate"))].
    by apply (entity_ids_sublist (states hass w)). }
  split; [done|]. intros Hnd. by eapply sublist_NoDup.
Qed.

(** X4.  [getMeterReadings] and [getReadings] agree on a listed meter:
    when [getMeterReadings] succeeds for it, the readings of [getReadings]
    under the meter's id are those of [getMeterReadings], each with the
    [meter_id] set; when it fails, which [getMeterReadings] passes on,
    [getReadings] holds no reading under that id. *)
Theorem getMeterReadings_agrees (w : W) (meters : list Meter.t)
    (readings : list Reading.t) (m : Meter.t) :
  API.getMeters hass w = Ok meters →
  NoDup (Meter.entity_id <$> meters) →
  API.getReadings hass w = Ok readings →
  m ∈ meters →
  match API.getMeterReadings hass (Meter.entity_id m) w with
  | Ok own =>
      filter (λ r, Reading.meter_id r = Some (Meter.entity_id m)) readings
      = Reading.set_meter_id (Meter.entity_id m) <$> own
  | Throw e =>
      get_readings hass w (Meter.entity_id m) = Throw e
      ∧ filter (λ r, Reading.meter_id r = Some (Meter.entity_id m)) readings
        = []
  end.
Proof.
  intros Hm Hnd Hr Hin. rewrite (getReadings_fetched _ _ _ Hm) in Hr.
  injection Hr as <-. rewrite filter_bind_fetched by done.
  unfold API.getMeterReadings, fetched.
  by destruct (get_readings hass w (Meter.entity_id m)).
Qed.

End api_more.

Lemma getMeters_elem_of_witness :
  API.meter_of_entity (Sample.entity Sample.meter_b)
  ∈ [API.meter_of_entity (Sample.entity Sample.meter_a);
     API.meter_of_entity (Sample.entity Sample.meter_b)].
Proof.
  apply (getMeters_elem_of (Sample.fixed_hass Sample.answers_b_fails) ()
           Sample.registry); [reflexivity|vm_compute; reflexivity|].
  exists (RegistryEntry.mk Sample.meter_b "metermate"),
         (Sample.entity Sample.meter_b).
  split_and!; [right; left|reflexivity|vm_compute; reflexivity
              |reflexivity|reflexivity].
Defined.

Lemma getMeters_ids_sublist_witness :
  NoDup (Meter.entity_id <$>
           [API.meter_of_entity (Sample.entity Sample.meter_a);
            API.meter_of_entity (Sample.entity Sample.meter_b)]).
Proof.
  apply (getMeters_ids_sublist (Sample.fixed_hass Sample.answers_b_fails) ()
           Sample.registry).
  - intros k entity. simpl. unfold Sample.entities.
    intros H. apply lookup_insert_Some in H as [[<- <-]|[_ H]]; [done|].
    apply lookup_insert_Some in H as [[<- <-]|[_ H]]; [done|].
    by rewrite lookup_empty in H.
  - reflexivity.
  - vm_compute. reflexivity.
  - simpl. apply NoDup_cons. split; [|apply NoDup_singleton].
    intros H%list_elem_of_singleton. discriminate H.
Defined.

Lemma getMeterReadings_agrees_witness :
  filter (λ r, Reading.meter_id r = Some Sample.meter_b)
         [Reading.set_meter_id Sample.meter_a (Sample.reading 1 1000 10%Q);
          Reading.set_meter_id Sample.meter_a (Sample.reading 2 2000 25%Q)]
  = [].
Proof.
  pose (h := Sample.fixed_hass Sample.answers_b_fails).
  assert (Hm : API.getMeters h () =
               Ok [API.meter_of_entity (Sample.entity Sample.meter_a);
                   API.meter_of_entity (Sample.entity Sample.meter_b)])
    by (vm_compute; reflexivity).
  assert (Hnd : NoDup (Meter.entity_id <$>
                  [API.meter_of_entity (Sample.entity Sample.meter_a);
                   API.meter_of_entity (Sample.entity Sample.meter_b)])).
  { simpl. apply NoDup_cons. split; [|apply NoDup_singleton].
    intros H%list_elem_of_singleton. discriminate H. }
  assert (Hr : API.getReadings h () =
               Ok [Reading.set_meter_id Sample.meter_a (Sample.reading 1 1000 10%Q);
                   Reading.set_meter_id Sample.meter_a (Sample.reading 2 2000 25%Q)])
    by (vm_compute; reflexivity).
  exact (proj2 (getMeterReadings_agrees h () _ _
                  (API.meter_of_entity (Sample.entity Sample.meter_b))
                  Hm Hnd Hr ltac:(right; left))).
Defined.

(** ** [ha-metermate-panel.js]: loading *)

Section load_facts.
Import Panel.
Context {W : Type} (hass : Hass W).

Lemma loadData_without_api (c : Ctx W) :
  _api (panel c) = false → _loadData hass c = c.
Proof. intros Hapi. unfold _loadData. by rewrite Hapi. Qed.

Lemma loadData_failed (c : Ctx W) (e : Error) :
  _api (panel c) = true →
  entity_registry_list hass (world c) = Throw e →
  _loadData hass c
  = mkCtx (set_loading false
             (set_alert (Some (mkAlert error "Failed to load data")) (panel c)))
          (world c) (sent c).
Proof.
  intros Hapi Hreg. unfold _loadData. rewrite Hapi. simpl.
  apply getMeters_throws in Hreg. by rewrite Hreg.
Qed.

Lemma loadData_loaded (c : Ctx W) (meters : list Meter.t) :
  _api (panel c) = true →
  API.getMeters hass (world c) = Ok meters →
  _loadData hass c
  = mkCtx (set_loading false
             (set_data meters (meters ≫= fetched hass (world c))
                (if bool_decide (0 < length meters)%nat
                    && negb (truthy_string (_selectedMeter (panel c)))
                 then Meter.entity_id <$> head meters
                 else _selectedMeter (panel c))
                (panel c)))
          (world c) (sent c).
Proof.
  intros Hapi Hm. unfold _loadData. rewrite Hapi. simpl.
  by rewrite (getReadings_fetched _ _ _ Hm), Hm.
Qed.

Lemma loadData_showAddDialog (c : Ctx W) :
  _showAddDialog (panel (_loadData hass c)) = _showAddDialog (panel c).
Proof.
  unfold _loadData. destruct (negb (_api (panel c))); [done|]. simpl.
  by destruct (API.getMeters hass (world c)), (API.getReadings hass (world c)).
Qed.

Lemma loadData_editing (c : Ctx W) :
  _showEditDialog (panel (_loadData hass c)) = _showEditDialog (panel c)
  ∧ _editingReading (panel (_loadData hass c)) = _editingReading (panel c).
Proof.
  unfold _loadData. destruct (negb (_api (panel c))); [done|]. simpl.
  by destruct (API.getMeters hass (world c)), (API.getReadings hass (world c)).
Qed.

Lemma fetched_readings_of_meters (w : W) (meters : list Meter.t) r :
  r ∈ meters ≫= fetched hass w →
  ∃ m, m ∈ meters ∧ Reading.meter_id r = Some (Meter.entity_id m).
Proof.
  intros (m & Hr & Hm)%list_elem_of_bind. exists m. split; [done|].
  by eapply fetched_meter_id.
Qed.

Lemma loadData_readings_of_meters (c : Ctx W) :
  readings_of_meters (panel c) → readings_of_meters (panel (_loadData hass c)).
Proof.
  intros Hc. destruct (_api (panel c)) eqn:Hapi;
    [|by rewrite loadData_without_api].
  destruct (API.getMeters hass (world c)) as [meters|e] eqn:Hm.
  - rewrite (loadData_loaded c meters) by done.
    intros r Hr. simpl in *. by eapply fetched_readings_of_meters.
  - apply getMeters_throws in Hm.
    by rewrite (loadData_failed c e).
Qed.

(** X5.  A load that works replaces the meters and readings of the panel
    by those of [getMeters] and [getReadings] and ends the loading state.
    It picks the first meter when none is selected, and keeps a selection
    it finds, also when that meter is no longer among the meters.  It
    sends no service call and leaves the instance as it is. *)
Theorem loadData_success (c : Ctx W) (meters : list Meter.t) :
  _api (panel c) = true →
  API.getMeters hass (world c) = Ok meters →
  _meters (panel (_loadData hass c)) = meters
  ∧ API.getReadings hass (world c) = Ok (_readings (panel (_loadData hass c)))
  ∧ _loading (panel (_loadData hass c)) = false
  ∧ (truthy_string (_selectedMeter (panel c)) = true →
     _selectedMeter (panel (_loadData hass c)) = _selectedMeter (panel c))
  ∧ (truthy_string (_selectedMeter (panel c)) = false →
     ∀ m rest, meters = m :: rest →
       _selectedMeter (panel (_loadData hass c)) = Some (Meter.entity_id m))
  ∧ (truthy_string (_selectedMeter (panel c)) = false → meters = [] →
     _selectedMeter (panel (_loadData hass c)) = _selectedMeter (panel c))
  ∧ sent (_loadData hass c) = sent c
  ∧ world (_loadData hass c) = world c.
Proof.
  intros Hapi Hm. rewrite (loadData_loaded c meters) by done. simpl.
  split_and!; try done.
  - by apply getReadings_fetched.
  - intros ->. by rewrite andb_false_r.
  - intros -> m rest ->. done.
  - intros -> ->. done.
Qed.

(** X6.  A load that fails, which it does exactly when the entity registry
    cannot be read, keeps the meters, the readings and the selection the
    panel had, shows the alert [Failed to load data] and ends the loading
    state; nothing is sent. *)
Theorem loadData_failure (c : Ctx W) (e : Error) :
  _api (panel c) = true →
  entity_registry_list hass (world c) = Throw e →
  _meters (panel (_loadData hass c)) = _meters (panel c)
  ∧ _readings (panel (_loadData hass c)) = _readings (panel c)
  ∧ _selectedMeter (panel (_loadData hass c)) = _selectedMeter (panel c)
  ∧ _alert (panel (_loadData hass c))
    = Some (mkAlert error "Failed to load data")
  ∧ _loading (panel (_loadData hass c)) = false
  ∧ sent (_loadData hass c) = sent c
  ∧ world (_loadData hass c) = world c.
Proof. intros Hapi Hreg. by rewrite (loadData_failed c e). Qed.

(** X7.  [_refreshMeters] ends with the alert [Meters refreshed] also when
    the load behind it failed: the failure alert is replaced, and the
    panel keeps the meters and readings it had. *)
Theorem refreshMeters_hides_failure (c : Ctx W) (e : Error) :
  _api (panel c) = true →
  entity_registry_list hass (world c) = Throw e →
  _alert (panel (_refreshMeters hass c))
  = Some (mkAlert success "Meters refreshed")
  ∧ _meters (panel (_refreshMeters hass c)) = _meters (panel c)
  ∧ _readings (panel (_refreshMeters hass c)) = _readings (panel c).
Proof.
  intros Hapi Hreg. unfold _refreshMeters. by rewrite (loadData_failed c e).
Qed.

End load_facts.

Lemma loadData_success_witness :
  Panel._selectedMeter
    (Panel.panel (Panel._loadData (Sample.fixed_hass Sample.answers_b_fails)
                                  (Sample.start ())))
  = Some Sample.meter_a.
Proof.
  refine (proj1 (proj2 (proj2 (proj2 (proj2
            (loadData_success (Sample.fixed_hass Sample.answers_b_fails)
               (Sample.start ())
               [API.meter_of_entity (Sample.entity Sample.meter_a);
                API.meter_of_entity (Sample.entity Sample.meter_b)] _ _)))))
            _ (API.meter_of_entity (Sample.entity Sample.meter_a))
            [API.meter_of_entity (Sample.entity Sample.meter_b)] _);
    [reflexivity|vm_compute; reflexivity|reflexivity|reflexivity].
Defined.

Lemma loadData_failure_witness :
  Panel._alert
    (Panel.panel (Panel._loadData Sample.unreachable_hass (Sample.selected ())))
  = Some (Panel.mkAlert Panel.error "Failed to load data").
Proof.
  refine (proj1 (proj2 (proj2 (proj2
            (loadData_failure Sample.unreachable_hass (Sample.selected ())
               (mkError "Connection lost") _ _)))));
    reflexivity.
Defined.

Lemma refreshMeters_hides_failure_witness :
  Panel._alert
    (Panel.panel (Panel._refreshMeters Sample.unreachable_hass
                                       (Sample.selected ())))
  = Some (Panel.mkAlert Panel.success "Meters refreshed").
Proof.
  refine (proj1 (refreshMeters_hides_failure Sample.unreachable_hass
                   (Sample.selected ()) (mkError "Connection lost") _ _));
    reflexivity.
Defined.

(** ** [ha-metermate-panel.js]: the add handler as a whole *)

Section add_facts.
Import Panel.
Context {W : Type} (hass : Hass W).

Lemma api_callService_run call (c : Ctx W) :
  _api (panel c) = true →
  api_callService hass call c
  = (fst (callService hass call (world c)),
     mkCtx (panel c) (snd (callService hass call (world c))) (sent c ++ [call])).
Proof.
  intros Hapi. unfold api_callService, recorded, API.callService.
  rewrite Hapi. by destruct (callService hass call (world c)).
Qed.

Lemma api_callService_missing call (c : Ctx W) :
  _api (panel c) = false →
  api_callService hass call c
  = (Throw (mkError "Cannot read properties of null"), c).
Proof. intros Hapi. unfold api_callService. by rewrite Hapi. Qed.

(** The ways [_handleAddReading] can end: with an error alert and nothing
    else; by closing the dialog and loading, for an entry type it does not
    know; or after the one call the form stands for, by what the service
    answered. *)
Lemma handleAddReading_cases (form : FormData) (c : Ctx W) :
  (∃ msg, _handleAddReading hass form c = _showAlert error msg c)
  ∨ (entryType form ≠ Some "meter_reading"
     ∧ entryType form ≠ Some "consumption"
     ∧ _handleAddReading hass form c = _loadData hass (_closeAddDialog c))
  ∨ (∃ selected call,
       _selectedMeter (panel c) = Some selected
       ∧ add_call form selected call
       ∧ _api (panel c) = true
       ∧ match callService hass call (world c) with
         | (Ok _, w1) =>
             ∃ okmsg,
               okmsg ∈ added_alerts
               ∧ _handleAddReading hass form c
               = _loadData hass
                   (_closeAddDialog
                      (_showAlert success okmsg
                         (mkCtx (panel c) w1 (sent c ++ [call]))))
         | (Throw e, w1) =>
             _handleAddReading hass form c
             = _showAlert error
                 ("Failed to add reading: " ++ message_or_error e)
                 (mkCtx (panel c) w1 (sent c ++ [call]))
         end).
Proof.
  destruct (_selectedMeter (panel c)) as [selected|] eqn:Hsel;
    [|left; eexists; unfold _handleAddReading; by rewrite Hsel].
  destruct (decide (selected = EmptyString)) as [->|Hne].
  { left. eexists. unfold _handleAddReading. by rewrite Hsel. }
  rewrite (handleAddReading_selected _ _ _ selected) by done.
  destruct (decide (entryType form = Some "meter_reading")) as [Hty|Hty1].
  - unfold _handleAddReading_try. rewrite Hty.
    destruct (decide _) as [_|[]]; [|done].
    destruct (invalid_value (meter_reading form)); [left; by eexists|].
    destruct (reading_datetime form) as [t|] eqn:Ht; simpl;
      [|left; by eexists].
    destruct (_api (panel c)) eqn:Hapi.
    + right. right.
      exists selected, (add_meter_reading selected (meter_reading form) t
                                          (notes form)).
      split_and!; [done| |done|].
      { left. split; [done|]. by exists t. }
      rewrite api_callService_run by done.
      destruct (callService hass _ (world c)) as [[[]|e] w1]; simpl;
        [|done].
      eexists. split; [|done]. left.
    + left. rewrite api_callService_missing by done. by eexists.
  - destruct (decide (entryType form = Some "consumption")) as [Hty|Hty2].
    + destruct (invalid_value (consumption form)) eqn:Hv.
      { left. unfold _handleAddReading_try. rewrite Hty, Hv.
        destruct (decide _) as [[=]|_]. destruct (decide _) as [_|[]]; [|done].
        by eexists. }
      rewrite handleAddReading_try_consumption by done.
      destruct (period_start form) as [|[s|]] eqn:Hs,
               (period_end form) as [|[e|]] eqn:He;
        try (left; by eexists).
      case_bool_decide as Hle; [left; by eexists|].
      destruct (_api (panel c)) eqn:Hapi.
      * right. right.
        exists selected, (add_consumption_period selected (consumption form)
                                                 s e (notes form)).
        split_and!; [done| |done|].
        { right. split; [done|]. exists s, e. split; [|done].
          split_and!; [done..|lia]. }
        rewrite api_callService_run by done.
        destruct (callService hass _ (world c)) as [[[]|err] w1]; simpl;
          [|done].
        eexists. split; [|done]. right. left.
      * left. rewrite api_callService_missing by done. by eexists.
    + right. left. split_and!; [done..|].
      unfold _handleAddReading_try.
      destruct (decide _) as [|_]; [done|].
      by destruct (decide _) as [|_].
Qed.

Lemma sent_snoc_ne (l : list ServiceCall) (call : ServiceCall) :
  l ≠ l ++ [call].
Proof.
  intros H. apply (f_equal length) in H. rewrite length_app in H.
  simpl in H. lia.
Qed.

Lemma add_call_selected (form : FormData) (selected : string)
    (call : ServiceCall) :
  add_call form selected call →
  match call with
  | add_meter_reading entity_id _ _ _
  | add_consumption_period entity_id _ _ _ _ => entity_id = selected
  | _ => False
  end.
Proof.
  intros [(_ & t & _ & ->)|(_ & s & e & _ & ->)]; done.
Qed.

(** X8.  The add handler sends at most one service call, and touches the
    instance through that call only.  The call it sends is the one the
    form stands for: [add_meter_reading] or [add_consumption_period] for
    the selected meter, with the value, dates and notes of the form. *)
Theorem handleAddReading_at_most_one_call (form : FormData) (c : Ctx W) :
  (sent (_handleAddReading hass form c) = sent c
   ∧ world (_handleAddReading hass form c) = world c)
  ∨ ∃ selected call,
      _selectedMeter (panel c) = Some selected
      ∧ add_call form selected call
      ∧ sent (_handleAddReading hass form c) = sent c ++ [call]
      ∧ world (_handleAddReading hass form c)
        = snd (callService hass call (world c)).
Proof.
  destruct (handleAddReading_cases form c)
    as [[msg ->]|[(_ & _ & ->)|(selected & call & Hsel & Hcall & _ & H)]].
  - by left.
  - left. by rewrite loadData_sent, loadData_world.
  - right. exists selected, call. split_and!; [done..| |].
    + destruct (callService hass call (world c)) as [[[]|e] w1].
      * destruct H as (okmsg & _ & ->). by rewrite loadData_sent.
      * by rewrite H.
    + destruct (callService hass call (world c)) as [[[]|e] w1].
      * destruct H as (okmsg & _ & ->). by rewrite loadData_world.
      * by rewrite H.
Qed.

(** X9.  When the service accepts the call of the add handler, the dialog
    is closed and the panel is loaded from the instance as the call left
    it: if that load works, the panel holds the meters and readings of
    that instance and the alert says that the entry was added. *)
Theorem handleAddReading_accepted (form : FormData) (c : Ctx W)
    (call : ServiceCall) (w1 : W) :
  sent (_handleAddReading hass form c) = sent c ++ [call] →
  callService hass call (world c) = (Ok (), w1) →
  world (_handleAddReading hass form c) = w1
  ∧ _showAddDialog (panel (_handleAddReading hass form c)) = false
  ∧ ∀ meters,
      API.getMeters hass w1 = Ok meters →
      _meters (panel (_handleAddReading hass form c)) = meters
      ∧ API.getReadings hass w1
        = Ok (_readings (panel (_handleAddReading hass form c)))
      ∧ ∃ okmsg,
          _alert (panel (_handleAddReading hass form c))
          = Some (mkAlert success okmsg)
          ∧ okmsg ∈ added_alerts.
Proof.
  intros Hsent Hcall.
  destruct (handleAddReading_cases form c)
    as [[msg Heq]|[(_ & _ & Heq)|(selected & call' & Hsel & Hadd & Hapi & H)]].
  - rewrite Heq in Hsent. simpl in Hsent. by apply sent_snoc_ne in Hsent.
  - rewrite Heq, loadData_sent in Hsent. by apply sent_snoc_ne in Hsent.
  - assert (call' = call) as ->.
    { destruct (callService hass call' (world c)) as [[[]|e] w'].
      - destruct H as (okmsg & _ & Heq). rewrite Heq, loadData_sent in Hsent.
        simpl in Hsent. by apply app_inj_tail in Hsent as [_ ?].
      - rewrite H in Hsent. simpl in Hsent.
        by apply app_inj_tail in Hsent as [_ ?]. }
    rewrite Hcall in H. destruct H as (okmsg & Hok & Heq). rewrite Heq.
    rewrite loadData_world, loadData_showAddDialog. split_and!; [done..|].
    intros meters Hm. rewrite (loadData_loaded _ _ meters) by done. simpl.
    split_and!; [done|by apply getReadings_fetched|].
    by exists okmsg.
Qed.


(** X11.  A submission whose entry type is neither [meter_reading] nor
    [consumption] sends nothing, yet the handler closes the dialog and
    loads the data again, as after an entry that was added. *)
Theorem handleAddReading_unknown_entry_type (form : FormData) (c : Ctx W)
    (selected : string) :
  _selectedMeter (panel c) = Some selected → selected ≠ EmptyString →
  entryType form ≠ Some "meter_reading" →
  entryType form ≠ Some "consumption" →
  _handleAddReading hass form c = _loadData hass (_closeAddDialog c)
  ∧ sent (_handleAddReading hass form c) = sent c
  ∧ world (_handleAddReading hass form c) = world c
  ∧ _showAddDialog (panel (_handleAddReading hass form c)) = false.
Proof.
  intros Hsel Hne Hty1 Hty2.
  rewrite (handleAddReading_selected _ _ _ selected) by done.
  unfold _handleAddReading_try.
  destruct (decide _) as [|_]; [done|]. destruct (decide _) as [|_]; [done|].
  by rewrite loadData_sent, loadData_world, loadData_showAddDialog.
Qed.


(** X13.  With no meter selected, the add handler and the rebuild handler
    only show [Please select a meter first]: whatever the form holds and
    whatever was answered to the confirm dialog, nothing is sent. *)
Theorem handlers_need_selected_meter (form : FormData) (confirmed : bool)
    (c : Ctx W) :
  truthy_string (_selectedMeter (panel c)) = false →
  _handleAddReading hass form c
  = _showAlert error "Please select a meter first" c
  ∧ _rebuildHistory hass confirmed c
    = _showAlert error "Please select a meter first" c.
Proof.
  intros Hsel. unfold _handleAddReading, _rebuildHistory.
  destruct (_selectedMeter (panel c)) as [selected|]; [|done].
  simpl in Hsel. apply bool_decide_eq_false in Hsel.
  destruct (decide (selected = EmptyString)) as [|Hne]; [done|].
  by destruct Hsel.
Qed.

End add_facts.

Lemma handleAddReading_accepted_witness :
  Panel._showAddDialog
    (Panel.panel
       (Panel._handleAddReading (Sample.fixed_hass Sample.answers_b_empty)
          (Sample.meter_reading_form (Finite 15650)) (Sample.selected ())))
  = false.
Proof.
  refine (proj1 (proj2
            (handleAddReading_accepted (Sample.fixed_hass Sample.answers_b_empty)
               (Sample.meter_reading_form (Finite 15650)) (Sample.selected ())
               (add_meter_reading Sample.meter_a (Finite 15650) 1000 EmptyString)
               () _ _)));
    vm_compute; reflexivity.
Defined.


Lemma handleAddReading_unknown_entry_type_witness :
  Panel.sent
    (Panel._handleAddReading (Sample.fixed_hass Sample.answers_b_empty)
       (Panel.mkFormData None (Finite 15650) (Some 1000) NaN
                         Panel.blank Panel.blank EmptyString)
       (Sample.selected ()))
  = []
  ∧ Panel._showAddDialog
      (Panel.panel
         (Panel._handleAddReading (Sample.fixed_hass Sample.answers_b_empty)
            (Panel.mkFormData None (Finite 15650) (Some 1000) NaN
                              Panel.blank Panel.blank EmptyString)
            (Sample.selected ())))
    = false.
Proof.
  destruct (handleAddReading_unknown_entry_type
              (Sample.fixed_hass Sample.answers_b_empty)
              (Panel.mkFormData None (Finite 15650) (Some 1000) NaN
                                Panel.blank Panel.blank EmptyString)
              (Sample.selected ()) Sample.meter_a)
    as (_ & Hsent & _ & Hdialog); try done.
Defined.


Lemma handlers_need_selected_meter_witness :
  Panel.sent
    (Panel._handleAddReading (Sample.fixed_hass Sample.answers_b_empty)
       (Sample.meter_reading_form (Finite 15650)) (Sample.start ()))
  = [].
Proof.
  rewrite (proj1 (handlers_need_selected_meter
                    (Sample.fixed_hass Sample.answers_b_empty)
                    (Sample.meter_reading_form (Finite 15650)) true
                    (Sample.start ()) eq_refl)).
  reflexivity.
Defined.

(** ** [ha-metermate-panel.js]: rebuilding, deleting and editing *)

Section more_handlers_facts.
Import Panel.
Context {W : Type} (hass : Hass W).

(** X14.  [_rebuildHistory] sends one [rebuild_history] call for the
    selected meter when a meter is selected and the user confirms, and
    nothing otherwise; declined, it leaves the panel as it is.  When the
    service fails, the alert carries the message of the error and the
    panel keeps its meters and readings without loading again. *)
Theorem rebuildHistory_calls (confirmed : bool) (c : Ctx W)
    (selected : string) :
  _selectedMeter (panel c) = Some selected → selected ≠ EmptyString →
  (confirmed = false → _rebuildHistory hass confirmed c = c)
  ∧ (confirmed = true →
     sent (_rebuildHistory hass confirmed c)
     = sent c ++ [rebuild_history selected]
     ∧ world (_rebuildHistory hass confirmed c)
       = snd (callService hass (rebuild_history selected) (world c))
     ∧ ∀ e, fst (callService hass (rebuild_history selected) (world c))
            = Throw e →
            _alert (panel (_rebuildHistory hass confirmed c))
            = Some (mkAlert error ("Failed to rebuild history: " ++ message e))
            ∧ _meters (panel (_rebuildHistory hass confirmed c))
              = _meters (panel c)
            ∧ _readings (panel (_rebuildHistory hass confirmed c))
              = _readings (panel c)).
Proof.
  intros Hsel Hne. unfold _rebuildHistory. rewrite Hsel.
  destruct (decide (selected = EmptyString)); [done|].
  split; [by intros ->|]. intros ->. simpl.
  unfold hass_callService, recorded.
  destruct (callService hass (rebuild_history selected) (world c))
    as [[[]|e] w1]; simpl.
  - rewrite loadData_sent, loadData_world. by split_and!.
  - split_and!; [done..|]. by intros ? [= <-].
Qed.

(** X15.  [_handleDeleteReading] does nothing when the user declines.
    Confirmed, it sends one [delete_reading] call for the given meter and
    reading; if the service fails, the alert is [Failed to delete
    reading], whatever the error says, and the meters and readings of the
    panel stay. *)
Theorem handleDeleteReading_calls (meterId : string) (readingId : nat)
    (confirmed : bool) (c : Ctx W) :
  _api (panel c) = true →
  (confirmed = false → _handleDeleteReading hass meterId readingId confirmed c = c)
  ∧ (confirmed = true →
     sent (_handleDeleteReading hass meterId readingId confirmed c)
     = sent c ++ [delete_reading meterId readingId]
     ∧ world (_handleDeleteReading hass meterId readingId confirmed c)
       = snd (callService hass (delete_reading meterId readingId) (world c))
     ∧ ∀ e, fst (callService hass (delete_reading meterId readingId) (world c))
            = Throw e →
            _alert (panel (_handleDeleteReading hass meterId readingId
                             confirmed c))
            = Some (mkAlert error "Failed to delete reading")
            ∧ _meters (panel (_handleDeleteReading hass meterId readingId
                                confirmed c))
              = _meters (panel c)
            ∧ _readings (panel (_handleDeleteReading hass meterId readingId
                                  confirmed c))
              = _readings (panel c)).
Proof.
  intros Hapi. unfold _handleDeleteReading. split; [by intros ->|].
  intros ->. simpl. rewrite Hapi. unfold recorded, API.deleteReading.
  destruct (callService hass (delete_reading meterId readingId) (world c))
    as [[[]|e] w1]; simpl.
  - rewrite loadData_sent, loadData_world. by split_and!.
  - by split_and!.
Qed.

(** X16.  [_handleEditReading] checks nothing: for a reading under edit
    it sends one [update_reading] call with the id and meter of that
    reading and the value of the form as it is, be it [NaN], zero or
    negative.  If the service accepts, the edit dialog is closed and the
    reading is no longer under edit; if it fails, the alert is [Failed to
    update reading] and the dialog stays open on the reading. *)
Theorem handleEditReading_calls (form : EditForm) (c : Ctx W)
    (reading : Reading.t) (meter_id : string) :
  _api (panel c) = true →
  _editingReading (panel c) = Some reading →
  Reading.meter_id reading = Some meter_id →
  ∃ c',
    _handleEditReading hass form c = Some c'
    ∧ sent c'
      = sent c ++ [update_reading meter_id (Reading.id reading)
                     (edit_value form) (edit_datetime form)
                     (or_undefined (edit_notes form))]
    ∧ match fst (callService hass
                   (update_reading meter_id (Reading.id reading)
                      (edit_value form) (edit_datetime form)
                      (or_undefined (edit_notes form)))
                   (world c)) with
      | Ok _ =>
          _showEditDialog (panel c') = false
          ∧ _editingReading (panel c') = None
      | Throw _ =>
          _alert (panel c') = Some (mkAlert error "Failed to update reading")
          ∧ _showEditDialog (panel c') = _showEditDialog (panel c)
          ∧ _editingReading (panel c') = Some reading
      end.
Proof.
  intros Hapi Hedit Hid. unfold _handleEditReading.
  rewrite Hedit, Hid, Hapi. eexists. split; [done|].
  unfold recorded, API.updateReading.
  destruct (callService hass _ (world c)) as [[[]|e] w1]; simpl.
  - rewrite loadData_sent. split; [done|].
    by rewrite (proj1 (loadData_editing hass _)),
               (proj2 (loadData_editing hass _)).
  - by split_and!.
Qed.

End more_handlers_facts.

Lemma rebuildHistory_calls_witness :
  Panel._alert
    (Panel.panel (Panel._rebuildHistory Sample.rejecting_hass true
                                        (Sample.selected ())))
  = Some (Panel.mkAlert Panel.error
            "Failed to rebuild history: Service not available").
Proof.
  refine (proj1 (proj2 (proj2 (proj2
            (rebuildHistory_calls Sample.rejecting_hass true (Sample.selected ())
               Sample.meter_a _ _) _)) (mkError "Service not available") _));
    [reflexivity|discriminate|reflexivity|reflexivity].
Defined.

Lemma handleDeleteReading_calls_witness :
  Panel.sent
    (Panel._handleDeleteReading (Sample.fixed_hass Sample.answers_b_empty)
       Sample.meter_a 1 true (Sample.selected ()))
  = [delete_reading Sample.meter_a 1].
Proof.
  refine (proj1 (proj2
            (handleDeleteReading_calls (Sample.fixed_hass Sample.answers_b_empty)
               Sample.meter_a 1 true (Sample.selected ()) _) _));
    reflexivity.
Defined.

Lemma handleEditReading_calls_witness :
  ∃ c',
    Panel._handleEditReading (Sample.fixed_hass Sample.answers_b_empty)
      (Panel.mkEditForm NaN None EmptyString)
      (Panel._openEditDialog
         (Reading.set_meter_id Sample.meter_a (Sample.reading 1 1000 10%Q))
         (Sample.selected ()))
    = Some c'
    ∧ Panel.sent c' = [update_reading Sample.meter_a 1 NaN None None].
Proof.
  destruct (handleEditReading_calls (Sample.fixed_hass Sample.answers_b_empty)
              (Panel.mkEditForm NaN None EmptyString)
              (Panel._openEditDialog
                 (Reading.set_meter_id Sample.meter_a (Sample.reading 1 1000 10%Q))
                 (Sample.selected ()))
              (Reading.set_meter_id Sample.meter_a (Sample.reading 1 1000 10%Q))
              Sample.meter_a eq_refl eq_refl eq_refl)
    as (c' & Hc' & Hsent & _).
  exists c'. split; [exact Hc'|exact Hsent].
Defined.

(** ** [ha-metermate-panel.js]: what the panel holds and shows *)

Section panel_invariant.
Import Panel.
Context {W : Type} (hass : Hass W).

Lemma readings_of_meters_same_data (p p' : t) :
  _meters p' = _meters p → _readings p' = _readings p →
  readings_of_meters p → readings_of_meters p'.
Proof. unfold readings_of_meters. intros -> ->. done. Qed.

Lemma handleAddReading_readings_of_meters (form : FormData) (c : Ctx W) :
  readings_of_meters (panel c) →
  readings_of_meters (panel (_handleAddReading hass form c)).
Proof.
  intros Hc.
  destruct (handleAddReading_cases hass form c)
    as [[msg ->]|[(_ & _ & ->)|(selected & call & _ & _ & _ & H)]].
  - done.
  - by apply loadData_readings_of_meters.
  - destruct (callService hass call (world c)) as [[[]|e] w1].
    + destruct H as (okmsg & _ & ->). by apply loadData_readings_of_meters.
    + by rewrite H.
Qed.

(** X17.  Every reading the panel holds carries the entity id of a meter
    the panel holds: this is so in a fresh panel, and loading, every
    handler and the assignment of [hass] keep it so. *)
Theorem panel_readings_of_meters (c : Ctx W) :
  readings_of_meters (panel c) →
  readings_of_meters (panel (_loadData hass c))
  ∧ (∀ loaded, readings_of_meters (panel (set_hass hass loaded c)))
  ∧ readings_of_meters (panel (_refreshMeters hass c))
  ∧ (∀ meterId, readings_of_meters (panel (_handleMeterSelect meterId c)))
  ∧ (∀ form, readings_of_meters (panel (_handleAddReading hass form c)))
  ∧ (∀ confirmed, readings_of_meters (panel (_rebuildHistory hass confirmed c)))
  ∧ (∀ meterId readingId confirmed,
       readings_of_meters
         (panel (_handleDeleteReading hass meterId readingId confirmed c)))
  ∧ (∀ form c', _handleEditReading hass form c = Some c' →
                readings_of_meters (panel c'))
  ∧ (∀ reading,
       readings_of_meters (panel (_openEditDialog reading c))
       ∧ readings_of_meters (panel (_closeEditDialog c))
       ∧ readings_of_meters (panel (_openAddDialog c))
       ∧ readings_of_meters (panel (_closeAddDialog c))).
Proof.
  intros Hc. split_and!.
  - by apply loadData_readings_of_meters.
  - intros []; [|done]. by apply loadData_readings_of_meters.
  - unfold _refreshMeters.
    by apply (loadData_readings_of_meters hass) in Hc.
  - done.
  - intros form. by apply handleAddReading_readings_of_meters.
  - intros confirmed. unfold _rebuildHistory.
    destruct (_selectedMeter (panel c)) as [selected|]; [|done].
    destruct (decide _); [done|]. destruct confirmed; [|done]. simpl.
    unfold hass_callService, recorded.
    destruct (callService hass _ (world c)) as [[[]|e] w1]; [|done].
    by apply loadData_readings_of_meters.
  - intros meterId readingId confirmed. unfold _handleDeleteReading.
    destruct confirmed; [|done]. simpl.
    destruct (_api (panel c)); [|done]. unfold recorded.
    destruct (API.deleteReading hass meterId readingId (world c))
      as [[[]|e] w1]; [|done].
    by apply loadData_readings_of_meters.
  - intros form c'. unfold _handleEditReading.
    destruct (_editingReading (panel c)) as [reading|]; [|by intros [= <-]].
    destruct (Reading.meter_id reading) as [meter_id|]; [|done].
    destruct (_api (panel c)); [|by intros [= <-]]. unfold recorded.
    destruct (API.updateReading hass _ _ _ _ _ (world c)) as [[[]|e] w1];
      intros [= <-]; [|done].
    by apply loadData_readings_of_meters.
  - done.
Qed.

(** X18.  The panel lists a reading exactly when a meter is selected and
    the reading is among the readings the panel holds under the id of that
    meter: no reading of another meter is shown, none is left out, and
    nothing is shown while no meter is selected. *)
Theorem getFilteredReadings_elem_of (p : t) (r : Reading.t) :
  r ∈ _getFilteredReadings p
  ↔ truthy_string (_selectedMeter p) = true
    ∧ r ∈ _readings p
    ∧ Reading.meter_id r = _selectedMeter p.
Proof.
  unfold _getFilteredReadings.
  destruct (_selectedMeter p) as [selected|]; simpl;
    [|split; [by intros ?%elem_of_nil|by intros [? _]]].
  destruct (decide (selected = EmptyString)) as [->|Hne].
  { split; [by intros ?%elem_of_nil|]. by intros [?%bool_decide_eq_true _]. }
  unfold JS.sort. rewrite insertion_sort_Permutation, list_elem_of_filter.
  rewrite bool_decide_eq_true.
  split; [by intros [? ?]|by intros (_ & ? & ?)].
Qed.

(** X19.  After a load that works, choosing one of the loaded meters
    makes the panel list exactly the readings that the [get_readings]
    call of that meter returned, each under the meter's id, in some
    order; the meters have distinct, non-empty entity ids. *)
Theorem select_shows_fetched (c : Ctx W) (meters : list Meter.t) (m : Meter.t) :
  _api (panel c) = true →
  API.getMeters hass (world c) = Ok meters →
  NoDup (Meter.entity_id <$> meters) →
  m ∈ meters →
  Meter.entity_id m ≠ EmptyString →
  _getFilteredReadings
    (panel (_handleMeterSelect (Meter.entity_id m) (_loadData hass c)))
  ≡ₚ fetched hass (world c) m.
Proof.
  intros Hapi Hm Hnd Hin Hne.
  rewrite (loadData_loaded hass c meters) by done.
  rewrite (getFilteredReadings_selected _ (Meter.entity_id m)) by done.
  unfold JS.sort. rewrite insertion_sort_Permutation. simpl.
  by rewrite filter_bind_fetched.
Qed.

End panel_invariant.

Lemma panel_readings_of_meters_witness :
  readings_of_meters
    (Panel.panel
       (Panel._handleAddReading (Sample.fixed_hass Sample.answers_b_fails)
          (Sample.meter_reading_form (Finite 15650)) (Sample.selected ()))).
Proof.
  refine (proj1 (proj2 (proj2 (proj2 (proj2
            (panel_readings_of_meters (Sample.fixed_hass Sample.answers_b_fails)
               (Sample.selected ()) _))))) _).
  intros r Hr. by apply elem_of_nil in Hr.
Defined.

Lemma select_shows_fetched_witness :
  Panel._getFilteredReadings
    (Panel.panel
       (Panel._handleMeterSelect Sample.meter_a
          (Panel._loadData (Sample.fixed_hass Sample.answers_b_fails)
                           (Sample.start ()))))
  ≡ₚ [Reading.set_meter_id Sample.meter_a (Sample.reading 1 1000 10%Q);
      Reading.set_meter_id Sample.meter_a (Sample.reading 2 2000 25%Q)].
Proof.
  apply (select_shows_fetched (Sample.fixed_hass Sample.answers_b_fails)
           (Sample.start ())
           [API.meter_of_entity (Sample.entity Sample.meter_a);
            API.meter_of_entity (Sample.entity Sample.meter_b)]
           (API.meter_of_entity (Sample.entity Sample.meter_a))).
  - reflexivity.
  - vm_compute. reflexivity.
  - simpl. apply NoDup_cons. split; [|apply NoDup_singleton].
    intros H%list_elem_of_singleton. discriminate H.
  - left.
  - discriminate.
Defined.

(** ** [ha-metermate-panel.js]: a panel without its API object, and loading twice *)

Section api_object_facts.
Import Panel.
Context {W : Type} (hass : Hass W).

(** X20.  Until the API object exists, loading does nothing, and the add,
    delete and edit handlers send nothing and leave the instance as it
    is; only [_rebuildHistory], which calls [hass] itself, still sends its
    call. *)
Theorem handlers_without_api (c : Ctx W) :
  _api (panel c) = false →
  _loadData hass c = c
  ∧ (∀ form, sent (_handleAddReading hass form c) = sent c
             ∧ world (_handleAddReading hass form c) = world c)
  ∧ (∀ meterId readingId confirmed,
       sent (_handleDeleteReading hass meterId readingId confirmed c) = sent c
       ∧ world (_handleDeleteReading hass meterId readingId confirmed c)
         = world c)
  ∧ (∀ form c', _handleEditReading hass form c = Some c' →
                sent c' = sent c ∧ world c' = world c)
  ∧ (∀ selected,
       _selectedMeter (panel c) = Some selected → selected ≠ EmptyString →
       sent (_rebuildHistory hass true c)
       = sent c ++ [rebuild_history selected]).
Proof.
  intros Hapi. split_and!.
  - by apply loadData_without_api.
  - intros form.
    destruct (handleAddReading_cases hass form c)
      as [[msg ->]|[(_ & _ & ->)|(? & ? & _ & _ & Hapi' & _)]];
      [done| |congruence].
    by rewrite loadData_sent, loadData_world.
  - intros meterId readingId confirmed. unfold _handleDeleteReading.
    rewrite Hapi. by destruct confirmed.
  - intros form c'. unfold _handleEditReading. rewrite Hapi.
    destruct (_editingReading (panel c)) as [reading|]; [|by intros [= <-]].
    destruct (Reading.meter_id reading); [|done]. by intros [= <-].
  - intros selected Hsel Hne. unfold _rebuildHistory. rewrite Hsel.
    destruct (decide _); [done|]. simpl. unfold hass_callService, recorded.
    destruct (callService hass _ (world c)) as [[[]|e] w1]; [|done].
    by rewrite loadData_sent.
Qed.

(** X21.  Loading twice in a row gives the panel that loading once gives:
    the second load finds the same instance and neither moves the
    selection nor changes the alert. *)
Theorem loadData_idempotent (c : Ctx W) :
  _loadData hass (_loadData hass c) = _loadData hass c.
Proof.
  destruct (_api (panel c)) eqn:Hapi;
    [|by rewrite !(loadData_without_api hass c)].
  destruct (API.getMeters hass (world c)) as [meters|e] eqn:Hm.
  - rewrite (loadData_loaded hass c meters) by done.
    rewrite (loadData_loaded hass _ meters) by done.
    unfold set_loading, set_data. simpl.
    assert ((if bool_decide (0 < length meters)%nat
                && negb (truthy_string
                     (if bool_decide (0 < length meters)%nat
                         && negb (truthy_string (_selectedMeter (panel c)))
                      then Meter.entity_id <$> head meters
                      else _selectedMeter (panel c)))
             then Meter.entity_id <$> head meters
             else if bool_decide (0 < length meters)%nat
                     && negb (truthy_string (_selectedMeter (panel c)))
                  then Meter.entity_id <$> head meters
                  else _selectedMeter (panel c))
            = (if bool_decide (0 < length meters)%nat
                  && negb (truthy_string (_selectedMeter (panel c)))
               then Meter.entity_id <$> head meters
               else _selectedMeter (panel c))) as ->; [|done].
    destruct (bool_decide (0 < length meters)%nat); simpl; [|done].
    destruct (truthy_string (_selectedMeter (panel c))) eqn:Hsel; simpl;
      [by rewrite Hsel|].
    by destruct (truthy_string (Meter.entity_id <$> head meters)).
  - apply getMeters_throws in Hm.
    rewrite (loadData_failed hass c e) by done.
    by rewrite (loadData_failed hass _ e).
Qed.

End api_object_facts.

Lemma handlers_without_api_witness :
  Panel.sent
    (Panel._handleAddReading (Sample.fixed_hass Sample.answers_b_empty)
       (Sample.meter_reading_form (Finite 15650))
       (Panel.mkCtx (Panel.set_api false Sample.selected_panel) () []))
  = [].
Proof.
  refine (proj1 (proj1 (proj2
            (handlers_without_api (Sample.fixed_hass Sample.answers_b_empty)
               (Panel.mkCtx (Panel.set_api false Sample.selected_panel) () [])
               _)) _));
    reflexivity.
Defined.

(** ** [api.js]: the names of the meters *)

Lemma startsWith_nonempty (s p : string) :
  p ≠ EmptyString → startsWith s p = true → s ≠ EmptyString.
Proof.
  intros Hp Hs ->. unfold startsWith in Hs. by destruct p.
Qed.

(** X22.  Every meter of [getMeters] has a name that is not empty: the
    friendly name of its entity when that is set and not empty, and its
    entity id otherwise. *)
Theorem getMeters_names {W : Type} (hass : Hass W) (w : W)
    (meters : list Meter.t) (m : Meter.t) :
  API.getMeters hass w = Ok meters →
  m ∈ meters →
  Meter.name m ≠ EmptyString
  ∧ ∃ entity,
      m = API.meter_of_entity entity
      ∧ match Entity.friendly_name (Entity.attributes entity) with
        | Some friendly_name =>
            if decide (friendly_name = EmptyString)
            then Meter.name m = Meter.entity_id m
            else Meter.name m = friendly_name
        | None => Meter.name m = Meter.entity_id m
        end.
Proof.
  intros Hget Hm. unfold API.getMeters in Hget.
  destruct (entity_registry_list hass w) as [registry|]; [|done].
  case_decide; simplify_eq; [by apply elem_of_nil in Hm|].
  apply list_elem_of_fmap in Hm as (entity & -> & Hentity).
  apply list_elem_of_filter in Hentity as [Hsensor _].
  apply startsWith_nonempty in Hsensor; [|done]. split.
  - simpl. by apply or_default_nonempty.
  - exists entity. split; [done|]. simpl.
    destruct (Entity.friendly_name (Entity.attributes entity)) as [f|]; [|done].
    simpl. by destruct (decide (f = EmptyString)).
Qed.

Lemma getMeters_names_witness :
  Meter.name (API.meter_of_entity (Sample.entity Sample.meter_a))
  ≠ EmptyString.
Proof.
  refine (proj1 (getMeters_names (Sample.fixed_hass Sample.answers_b_fails) ()
                   [API.meter_of_entity (Sample.entity Sample.meter_a);
                    API.meter_of_entity (Sample.entity Sample.meter_b)]
                   _ _ _)).
  - vm_compute. reflexivity.
  - left.
Defined.
